(** * camera_calibrator: chessboard pattern-size search and calibration orchestration

    Shallow embedding of [detect_corners.cpp], [calibrate_camera.cpp] and
    [wasm_interface.cpp].  OpenCV, the C++ standard library's [std::sort],
    the input stream and the JavaScript boundary are collaborators: they
    appear as parameters (section variables or interface records), the
    code of the repository itself is written out.  One implementation of
    [std::sort], that of GNU libstdc++, is written out as well. *)

From Stdlib Require Import ZArith List Lia Bool String Permutation Sorted.
From Stdlib Require PrimFloat Uint63.
Import ListNotations.
Local Open Scope Z_scope.

Set Implicit Arguments.

(* ================================================================== *)
(** ** C++ [int]: 32-bit two's complement, wrap-around written out *)

Module Int.
Definition INT_MAX : Z := 2147483647.
Definition INT_MIN : Z := -2147483648.

Definition in_range (z : Z) : Prop := INT_MIN <= z <= INT_MAX.

Definition wrap (z : Z) : Z := (z + 2147483648) mod 4294967296 - 2147483648.

Definition add (a b : Z) : Z := wrap (a + b).
Definition sub (a b : Z) : Z := wrap (a - b).
Definition mul (a b : Z) : Z := wrap (a * b).

(** [int n = v.size();] *)
Definition of_size (n : nat) : Z := wrap (Z.of_nat n).
End Int.

(* ================================================================== *)
(** ** [cv::Size], constructed as [Size(width, height)] *)

Record Size : Type := mkSize { width : Z; height : Z }.

Definition Size_eqb (a b : Size) : bool :=
  (width a =? width b) && (height a =? height b).

(** Default-constructed [Size foundSize;] *)
Definition Size_default : Size := mkSize 0 0.

(* ================================================================== *)
(** ** [std::sort]: the standard's contract, not one implementation

    The comparator must be a strict weak ordering; the result is a
    permutation of the input in which no later element precedes an earlier
    one.  The relative order of equivalent elements is left open. *)

Record StrictWeakOrdering (A : Type) (comp : A -> A -> bool) : Prop := {
  swo_irrefl : forall a, comp a a = false;
  swo_trans : forall a b c, comp a b = true -> comp b c = true -> comp a c = true;
  swo_equiv_trans : forall a b c,
      comp a b = false -> comp b a = false ->
      comp b c = false -> comp c b = false ->
      comp a c = false /\ comp c a = false
}.

Definition sorted_by (A : Type) (comp : A -> A -> bool) (l : list A) : Prop :=
  StronglySorted (fun a b => comp b a = false) l.

Record StdSort : Type := {
  std_sort : forall A : Type, (A -> A -> bool) -> list A -> list A;
  std_sort_permutation :
    forall (A : Type) (comp : A -> A -> bool) (l : list A),
      Permutation l (std_sort comp l);
  std_sort_sorted :
    forall (A : Type) (comp : A -> A -> bool) (l : list A),
      StrictWeakOrdering comp -> sorted_by comp (std_sort comp l)
}.

(* ================================================================== *)
(** ** [std::sort] as GNU libstdc++ implements it

    The library g++ links the command-line programs with
    ([bits/stl_algo.h] and [bits/stl_heap.h] of GCC 12): introsort, that
    is quicksort on a median-of-three pivot down to ranges of 16 elements,
    heapsort when the recursion gets deeper than 2*lg(n), and one
    insertion sort over the whole range at the end.

    The array is a list, an iterator an index into it.  The library moves
    a value through a hole ([__adjust_heap], [__push_heap]); that is
    written as a swap with the hole, the array holding the value in the
    hole.  The insertion routines shift elements one place; that is
    written as insertion into the sorted part, walking it from the right.
    An unguarded loop never leaves the range when the comparator is a
    strict weak ordering; here it stops at the end of the array instead of
    reading outside it.  Heap lengths are at least 1 wherever [sort] gets
    them, where the arithmetic on naturals agrees with that on
    [ptrdiff_t]. *)

Module Gnu.
Local Open Scope nat_scope.
Section Sort.
Variable A : Type.
Variable comp : A -> A -> bool.

(** [*(first + i) = x] *)
Fixpoint set_nth (i : nat) (x : A) (a : list A) : list A :=
  match a, i with
  | [], _ => []
  | _ :: t, O => x :: t
  | h :: t, S i' => h :: set_nth i' x t
  end.

(** [std::iter_swap(i, j)] *)
Definition iter_swap (i j : nat) (a : list A) : list A :=
  match nth_error a i, nth_error a j with
  | Some x, Some y => set_nth i y (set_nth j x a)
  | _, _ => a
  end.

(** [comp(i, j)] on two iterators *)
Definition comp_at (i j : nat) (a : list A) : bool :=
  match nth_error a i, nth_error a j with
  | Some x, Some y => comp x y
  | _, _ => false
  end.

(** [__move_median_to_first(result, a, b, c, comp)] *)
Definition move_median_to_first (result ia ib ic : nat) (a : list A) : list A :=
  if comp_at ia ib a then
    if comp_at ib ic a then iter_swap result ib a
    else if comp_at ia ic a then iter_swap result ic a
    else iter_swap result ia a
  else if comp_at ia ic a then iter_swap result ia a
  else if comp_at ib ic a then iter_swap result ic a
  else iter_swap result ib a.

(** [while (comp(first, pivot)) ++first;] of [__unguarded_partition] *)
Fixpoint scan_up (fuel first pivot : nat) (a : list A) : nat :=
  match fuel with
  | O => first
  | S f => if comp_at first pivot a then scan_up f (S first) pivot a else first
  end.

(** [while (comp(pivot, last)) --last;] of [__unguarded_partition] *)
Fixpoint scan_down (fuel last pivot : nat) (a : list A) : nat :=
  match fuel with
  | O => last
  | S f => if comp_at pivot last a then scan_down f (pred last) pivot a else last
  end.

(** [__unguarded_partition(first, last, pivot, comp)]: the cut and the
    array; one unit of [fuel] per pass of the outer loop. *)
Fixpoint unguarded_partition (fuel first last pivot : nat) (a : list A)
  : nat * list A :=
  match fuel with
  | O => (first, a)
  | S f =>
      let first1 := scan_up (List.length a) first pivot a in
      let last1 := scan_down (List.length a) (pred last) pivot a in
      if first1 <? last1
      then unguarded_partition f (S first1) last1 pivot (iter_swap first1 last1 a)
      else (first1, a)
  end.

(** [__unguarded_partition_pivot(first, last, comp)] *)
Definition unguarded_partition_pivot (first last : nat) (a : list A)
  : nat * list A :=
  let mid := first + (last - first) / 2 in
  let a1 := move_median_to_first first (first + 1) mid (last - 1) a in
  unguarded_partition (List.length a) (first + 1) last first a1.

(** [__push_heap(first, holeIndex, topIndex, value, comp)], the value
    standing in the hole. *)
Fixpoint push_heap (fuel first holeIndex topIndex : nat) (a : list A) : list A :=
  match fuel with
  | O => a
  | S f =>
      let parent := (holeIndex - 1) / 2 in
      if (topIndex <? holeIndex) && comp_at (first + parent) (first + holeIndex) a
      then push_heap f first parent topIndex
                     (iter_swap (first + holeIndex) (first + parent) a)
      else a
  end.

(** The [while (secondChild < (len - 1) / 2)] loop of [__adjust_heap]:
    the hole, [secondChild] and the array when it ends. *)
Fixpoint sift_down (fuel first holeIndex secondChild len : nat) (a : list A)
  : nat * nat * list A :=
  match fuel with
  | O => (holeIndex, secondChild, a)
  | S f =>
      if secondChild <? (len - 1) / 2
      then
        let sc := 2 * (secondChild + 1) in
        let sc' := if comp_at (first + sc) (first + (sc - 1)) a then sc - 1 else sc in
        sift_down f first sc' sc' len (iter_swap (first + holeIndex) (first + sc') a)
      else (holeIndex, secondChild, a)
  end.

(** [__adjust_heap(first, holeIndex, len, value, comp)], the value
    standing in the hole. *)
Definition adjust_heap (first holeIndex len : nat) (a : list A) : list A :=
  let topIndex := holeIndex in
  let '(hole, secondChild, a1) :=
    sift_down (List.length a) first holeIndex holeIndex len a in
  let '(hole', a2) :=
    if Nat.even len && (secondChild =? (len - 2) / 2)
    then
      let sc := 2 * (secondChild + 1) in
      (sc - 1, iter_swap (first + hole) (first + (sc - 1)) a1)
    else (hole, a1) in
  push_heap (List.length a) first hole' topIndex a2.

(** [__pop_heap(first, last, result, comp)] *)
Definition pop_heap (first last result : nat) (a : list A) : list A :=
  adjust_heap first 0 (last - first) (iter_swap result first a).

(** The loop of [__make_heap], from [parent] down to 0. *)
Fixpoint make_heap_from (parent first len : nat) (a : list A) : list A :=
  let a1 := adjust_heap first parent len a in
  match parent with
  | O => a1
  | S p => make_heap_from p first len a1
  end.

(** [__make_heap(first, last, comp)] *)
Definition make_heap (first last : nat) (a : list A) : list A :=
  if last - first <? 2 then a
  else make_heap_from ((last - first - 2) / 2) first (last - first) a.

(** The [for (i = middle; i < last; ++i)] loop of [__heap_select], with
    [n] passes to go. *)
Fixpoint heap_select_from (n i first middle : nat) (a : list A) : list A :=
  match n with
  | O => a
  | S n' =>
      heap_select_from n' (S i) first middle
        (if comp_at i first a then pop_heap first middle i a else a)
  end.

(** [__heap_select(first, middle, last, comp)] *)
Definition heap_select (first middle last : nat) (a : list A) : list A :=
  heap_select_from (last - middle) middle first middle (make_heap first middle a).

(** [__sort_heap(first, first + len, comp)] *)
Fixpoint sort_heap_len (len first : nat) (a : list A) : list A :=
  match len with
  | S (S _ as len') =>
      sort_heap_len len' first (pop_heap first (first + len') (first + len') a)
  | _ => a
  end.

(** [__sort_heap(first, last, comp)] *)
Definition sort_heap (first last : nat) (a : list A) : list A :=
  sort_heap_len (last - first) first a.

(** [__partial_sort(first, middle, last, comp)] *)
Definition partial_sort (first middle last : nat) (a : list A) : list A :=
  sort_heap first middle (heap_select first middle last a).

(** [enum { _S_threshold = 16 };] *)
Definition S_threshold : nat := 16.

(** [__introsort_loop(first, last, depth_limit, comp)]: the pass of the
    [while] loop on [first, cut) is the second recursive call. *)
Fixpoint introsort_loop (depth_limit first last : nat) (a : list A) : list A :=
  if S_threshold <? last - first
  then
    match depth_limit with
    | O => partial_sort first last last a
    | S depth_limit' =>
        let (cut, a1) := unguarded_partition_pivot first last a in
        let a2 := introsort_loop depth_limit' cut last a1 in
        introsort_loop depth_limit' first cut a2
    end
  else a.

(** The [while (comp(val, next))] loop of [__unguarded_linear_insert]
    over the elements before the insertion point, nearest first. *)
Fixpoint shift_in (val : A) (before : list A) : list A :=
  match before with
  | [] => [val]
  | next :: before' =>
      if comp val next then next :: shift_in val before' else val :: before
  end.

(** [__unguarded_linear_insert(last, comp)] with [val = *last] and
    [sorted] the elements before it. *)
Definition unguarded_linear_insert (sorted : list A) (val : A) : list A :=
  rev (shift_in val (rev sorted)).

(** One pass of the loop of [__insertion_sort]. *)
Definition guarded_insert (sorted : list A) (val : A) : list A :=
  match sorted with
  | [] => [val]
  | first :: _ =>
      if comp val first then val :: sorted else unguarded_linear_insert sorted val
  end.

(** [__insertion_sort(first, last, comp)] *)
Definition insertion_sort (a : list A) : list A := fold_left guarded_insert a [].

(** [__unguarded_insertion_sort(first, last, comp)], [sorted] being what
    stands before [first]. *)
Definition unguarded_insertion_sort (sorted rest : list A) : list A :=
  fold_left unguarded_linear_insert rest sorted.

(** [__final_insertion_sort(first, last, comp)] *)
Definition final_insertion_sort (a : list A) : list A :=
  if S_threshold <? List.length a
  then unguarded_insertion_sort (insertion_sort (firstn S_threshold a))
                                (skipn S_threshold a)
  else insertion_sort a.

(** [std::sort(first, last, comp)]; [__lg] is the binary logarithm
    rounded down. *)
Definition sort (a : list A) : list A :=
  match a with
  | [] => []
  | _ => final_insertion_sort
           (introsort_loop (2 * Nat.log2 (List.length a)) 0 (List.length a) a)
  end.
End Sort.
End Gnu.

(* ================================================================== *)
(** ** Candidate pattern sizes
    ([detect_corners.cpp] 36-85, copied to [wasm_interface.cpp] 83-108) *)

Module Candidates.

(** Hinted branch: [rows > 0 && cols > 0]. *)
Definition hintSizes (rows cols : Z) : list Size :=
  let sizesToTry := [mkSize cols rows; mkSize rows cols] in
  if (cols >? 1) && (rows >? 1)
  then sizesToTry ++ [mkSize (Int.sub cols 1) (Int.sub rows 1);
                      mkSize (Int.sub rows 1) (Int.sub cols 1)]
  else sizesToTry.

(** [for (int v = lo; v <= hi; v++) body], unrolled over [n = hi - lo + 1]
    iterations; [acc] is the vector being pushed to. *)
Fixpoint for_upto (n : nat) (v : Z) (body : Z -> list Size -> list Size)
         (acc : list Size) : list Size :=
  match n with
  | O => acc
  | S n' => for_upto n' (v + 1) body (body v acc)
  end.

Definition for_3_to_20 := for_upto 18 3.

(** The two nested loops of the auto branch. *)
Definition autoCandidates (detectedCount : Z) : list Size :=
  for_3_to_20
    (fun r =>
       for_3_to_20
         (fun c acc =>
            if Int.mul r c <=? Int.add detectedCount 20
            then acc ++ [mkSize c r]
            else acc))
    [].

(** The comparator lambda handed to [std::sort]. *)
Definition byAreaDesc (a b : Size) : bool :=
  Int.mul (width a) (height a) >? Int.mul (width b) (height b).

Section WithSort.
Variable S : StdSort.

(** Auto branch: [detectedCount = features.size()], generate, sort. *)
Definition autoSizes (detectedCount : Z) : list Size :=
  std_sort S byAreaDesc (autoCandidates detectedCount).

(** [sizesToTry] as it stands when the search loop starts; [features]
    is what [goodFeaturesToTrack] returned for the image (only looked
    at in the auto branch). *)
Definition sizesToTry (A : Type) (rows cols : Z) (features : list A) : list Size :=
  if (rows >? 0) && (cols >? 0)
  then hintSizes rows cols
  else autoSizes (Int.of_size (List.length features)).
End WithSort.

End Candidates.

(* ================================================================== *)
(** ** Pattern search loop
    ([detect_corners.cpp] 90-105, [wasm_interface.cpp] 111-122) *)

Module Search.
Section Loop.
Variable Point2f : Type.

(** [findChessboardCorners(gray, size, corners, flags)] for the fixed
    image and flags: the returned flag and what it left in [corners]. *)
Variable findChessboardCorners : Size -> bool * list Point2f.

(** The loop's variables, plus [attempted]: the sizes handed to the
    corner finder so far, in call order. *)
Record State : Type := mkState {
  found : bool;
  foundSize : Size;
  corners : list Point2f;
  attempted : list Size
}.

Definition init : State := mkState false Size_default [] [].

Fixpoint loop (sizes : list Size) (st : State) : State :=
  match sizes with
  | [] => st
  | size :: rest =>
      let (ok, cs) := findChessboardCorners size in
      let st' := mkState ok (if ok then size else foundSize st) cs
                         (attempted st ++ [size]) in
      if ok then st' else loop rest st'
  end.

Definition search (sizes : list Size) : State := loop sizes init.
End Loop.
End Search.

(* ================================================================== *)
(** ** Detection front ends *)

Module Detect.
Section FrontEnds.
(** OpenCV collaborators, for the grayscale image [gray]. *)
Variables Mat Point2f : Type.
Variable goodFeaturesToTrack : Mat -> list Point2f.
Variable findChessboardCorners : Mat -> Size -> bool * list Point2f.
Variable cornerSubPix : Mat -> list Point2f -> list Point2f.
Variable S : StdSort.

(** Everything between the grayscale conversion and the output:
    candidates, then the search loop. *)
Definition detect (gray : Mat) (rows cols : Z) : Search.State Point2f :=
  Search.search (findChessboardCorners gray)
    (Candidates.sizesToTry S rows cols (goodFeaturesToTrack gray)).

(** [wasm_interface.cpp] [detectCorners]: the object it returns;
    a field that is never [set] is [None]. *)
Record DetectObject : Type := mkDetectObject {
  o_found : bool;
  o_rows : option Z;
  o_cols : option Z;
  o_corners : option (list Point2f)
}.

Definition detectCorners (gray : Mat) (rows cols : Z) : DetectObject :=
  let st := detect gray rows cols in
  if Search.found st
  then mkDetectObject true
         (Some (height (Search.foundSize st)))
         (Some (width (Search.foundSize st)))
         (Some (cornerSubPix gray (Search.corners st)))
  else mkDetectObject false None None None.

(** [detect_corners.cpp] [main], from the point where the arguments
    are parsed and the image is read: what it prints (exit code 0). *)
Inductive DetectOutput : Type :=
| Detected (rows cols imgWidth imgHeight : Z) (corners : list Point2f)
  (** success: true with rows, cols, width, height, corners *)
| NotFoundTried (cols rows cols1 rows1 : Z)
  (** success: false, Chessboard pattern not found. Tried CxR and (C-1)x(R-1) *)
| AutoDetectionFailed.
  (** success: false, Auto-detection failed. *)

Definition detect_main (imgCols imgRows : Z) (gray : Mat) (rows cols : Z)
  : DetectOutput :=
  let st := detect gray rows cols in
  if Search.found st
  then Detected (height (Search.foundSize st)) (width (Search.foundSize st))
                imgCols imgRows (cornerSubPix gray (Search.corners st))
  else if rows >? 0
       then NotFoundTried cols rows (Int.sub cols 1) (Int.sub rows 1)
       else AutoDetectionFailed.
End FrontEnds.
End Detect.

(* ================================================================== *)
(** ** Outcomes of a computation that calls OpenCV *)

(** What an OpenCV call does: return, or throw a [cv::Exception]. *)
Inductive CvResult (A : Type) : Type :=
| Ok (a : A)
| Raise (what : string).
Arguments Ok {A} a.
Arguments Raise {A} what.

(** A stretch of the program: it finishes with a value, leaves by a
    [cv::Exception] in flight, or steps outside what C++ and embind define
    (an out-of-range [operator[]], a conversion of a JavaScript value of the
    wrong shape). *)
Inductive Exec (A : Type) : Type :=
| Ret (a : A)
| Thrown (what : string)
| Undefined.
Arguments Ret {A} a.
Arguments Thrown {A} what.
Arguments Undefined {A}.

Definition bind (A B : Type) (m : Exec A) (k : A -> Exec B) : Exec B :=
  match m with
  | Ret a => k a
  | Thrown what => Thrown what
  | Undefined => Undefined
  end.

Declare Scope exec_scope.
Delimit Scope exec_scope with exec.
Notation "x <- m ;; k" := (bind m (fun x => k))
  (at level 100, m at next level, right associativity) : exec_scope.

Definition call (A : Type) (r : CvResult A) : Exec A :=
  match r with
  | Ok a => Ret a
  | Raise what => Thrown what
  end.

Definition defined (A : Type) (o : option A) : Exec A :=
  match o with
  | Some a => Ret a
  | None => Undefined
  end.

(** [for (i = 0; i < n; i++) out[i] = f(i)], stopping at the first
    abnormal outcome. *)
Fixpoint collect (A : Type) (f : nat -> Exec A) (i n : nat) : Exec (list A) :=
  match n with
  | O => Ret []
  | S n' => (a <- f i ;; rest <- collect f (S i) n' ;; Ret (a :: rest))%exec
  end.

(** [v[i]] on a [std::vector]. *)
Definition vec_at (A : Type) (v : list A) (i : nat) : Exec A :=
  defined (nth_error v i).

(* ================================================================== *)
(** ** JavaScript values as embind's [val] shows them *)

Module Js.
#[local] Unset Elimination Schemes.
Inductive val : Type :=
| undefined
| number (x : PrimFloat.float)
| array (elems : list val)
| object (props : list (string * val)).
#[local] Set Elimination Schemes.

Fixpoint lookup (k : string) (props : list (string * val)) : option val :=
  match props with
  | [] => None
  | (k', v) :: rest => if String.eqb k k' then Some v else lookup k rest
  end.

(** [v[key]] *)
Definition get (v : val) (k : string) : val :=
  match v with
  | object props =>
      match lookup k props with
      | Some x => x
      | None => undefined
      end
  | _ => undefined
  end.

(** [v[i]] *)
Definition at_ (v : val) (i : nat) : val :=
  match v with
  | array elems => nth i elems undefined
  | _ => undefined
  end.

(** [v["length"].as<int>()]: an array has a length; the conversion of
    anything else is not given a value here. *)
Definition length_as_int (v : val) : option nat :=
  match v with
  | array elems => Some (List.length elems)
  | _ => None
  end.

(** [v.call<bool>("hasOwnProperty", key)] *)
Definition hasOwnProperty (v : val) (k : string) : option bool :=
  match v with
  | object props =>
      Some (match lookup k props with Some _ => true | None => false end)
  | undefined => None
  | _ => Some false
  end.

(** [v.as<float>()]; [fround] rounds a JavaScript number to binary32. *)
Definition as_float (fround : PrimFloat.float -> PrimFloat.float) (v : val)
  : option PrimFloat.float :=
  match v with
  | number x => Some (fround x)
  | _ => None
  end.
End Js.

(* ================================================================== *)
(** ** Calibration: data, collaborators, re-projection loop *)

Module Calib.

Definition double : Type := PrimFloat.float.

Record Point2f : Type := mkPoint2f { x2 : double; y2 : double }.
Record Point3f : Type := mkPoint3f { x3 : double; y3 : double; z3 : double }.

(** [size_t] to [double], as in [err*err/imagePoints[i].size()]. *)
Definition double_of_size (n : nat) : double :=
  PrimFloat.of_uint63 (Uint63.of_Z (Z.of_nat n)).

(** [std::sqrt(err*err/count)] *)
Definition rmsOfNorm (err : double) (count : nat) : double :=
  PrimFloat.sqrt (PrimFloat.div (PrimFloat.mul err err) (double_of_size count)).

(** The [normType] argument of [cv::norm] ([cv::NormTypes]). *)
Inductive NormType : Type :=
| NORM_INF
| NORM_L1
| NORM_L2
| NORM_L2SQR
| NORM_HAMMING
| NORM_HAMMING2.

(** [cv::norm(src1, src2, normType)] on two point vectors. *)
Definition Norm : Type :=
  list Point2f -> list Point2f -> NormType -> CvResult double.

(** The error taxonomy the outputs are read against. *)
Inductive ErrorKind : Type :=
| InvalidInput
| ImageUnreadable
| PatternNotFound
| PointCountMismatch
| CalibrationSolverError
| ReprojectionError.

Section Core.
Variable Mat : Type.

(** What [cv::calibrateCamera] hands back through its out-parameters
    and return value. *)
Record SolverOutput : Type := mkSolverOutput {
  rms : double;
  cameraMatrix : Mat;
  distCoeffs : Mat;
  rvecs : list Mat;
  tvecs : list Mat
}.

Variable cv_calibrateCamera :
  list (list Point3f) -> list (list Point2f) -> Size -> CvResult SolverOutput.
Variable cv_projectPoints :
  list Point3f -> Mat -> Mat -> Mat -> Mat -> CvResult (list Point2f).
Variable cv_norm : Norm.

(** The fields both front ends report on success. *)
Record CalibrationResult : Type := mkCalibrationResult {
  r_rms : double;
  r_camera_matrix : Mat;
  r_dist_coeffs : Mat;
  r_rvecs : list Mat;
  r_tvecs : list Mat;
  r_perViewErrors : list double
}.

(** One pass of the body of the re-projection loop
    ([calibrate_camera.cpp] 78-82, [wasm_interface.cpp] 224-228). *)
Definition viewError (objectPoints : list (list Point3f))
           (imagePoints : list (list Point2f)) (out : SolverOutput)
           (i : nat) : Exec double :=
  (o <- vec_at objectPoints i ;;
   rv <- vec_at (rvecs out) i ;;
   tv <- vec_at (tvecs out) i ;;
   imagePoints2 <- call (cv_projectPoints o rv tv (cameraMatrix out) (distCoeffs out)) ;;
   ip <- vec_at imagePoints i ;;
   err <- call (cv_norm ip imagePoints2 NORM_L2) ;;
   Ret (rmsOfNorm err (List.length ip)))%exec.

(** [for (size_t i = 0; i < objectPoints.size(); i++) ... push(perViewError)] *)
Definition reprojectionErrors (objectPoints : list (list Point3f))
           (imagePoints : list (list Point2f)) (out : SolverOutput)
  : Exec (list double) :=
  collect (viewError objectPoints imagePoints out) 0 (List.length objectPoints).

Definition resultOf (out : SolverOutput) (perViewErrors : list double)
  : CalibrationResult :=
  mkCalibrationResult (rms out) (cameraMatrix out) (distCoeffs out)
                      (rvecs out) (tvecs out) perViewErrors.

(* -------------------------------------------------------------- *)
(** *** Embedded front end: [wasm_interface.cpp] [calibrateCamera] *)

(** [as<float>()]: rounding of a JavaScript number to binary32. *)
Variable fround : double -> double.

Definition js_float (v : Js.val) : Exec double :=
  defined (Js.as_float fround v).

(** Lines 171-178: one view's image points. *)
Definition parseImageView (imgPts : Js.val) : Exec (list Point2f) :=
  (M <- defined (Js.length_as_int imgPts) ;;
   collect (fun j =>
              let pt := Js.at_ imgPts j in
              x <- js_float (Js.get pt "x") ;;
              y <- js_float (Js.get pt "y") ;;
              Ret (mkPoint2f x y)) 0 M)%exec.

(** Lines 187-190 and 201-203: one object point, z defaulting to 0. *)
Definition parseObjectPoint (pt : Js.val) : Exec Point3f :=
  (hasZ <- defined (Js.hasOwnProperty pt "z") ;;
   z <- (if hasZ : bool then js_float (Js.get pt "z") else Ret PrimFloat.zero) ;;
   x <- js_float (Js.get pt "x") ;;
   y <- js_float (Js.get pt "y") ;;
   Ret (mkPoint3f x y z))%exec.

(** [M = arr["length"]; resize(M); for j < M ...] *)
Definition parseObjectList (arr : Js.val) : Exec (list Point3f) :=
  (M <- defined (Js.length_as_int arr) ;;
   collect (fun j => parseObjectPoint (Js.at_ arr j)) 0 M)%exec.

(** Lines 161-167 and 181-206: shared or per-view object points. *)
Definition reconcileObjectPoints (objPointsJS : Js.val) (N : nat)
  : Exec (list (list Point3f)) :=
  (objLen <- defined (Js.length_as_int objPointsJS) ;;
   let sharedObjPoints := negb (Nat.eqb objLen N) in
   if sharedObjPoints
   then sharedObjPtsVec <- parseObjectList objPointsJS ;;
        Ret (repeat sharedObjPtsVec N)
   else collect (fun i => parseObjectList (Js.at_ objPointsJS i)) 0 N)%exec.

(** Lines 153-206: both point collections, in the order the source
    reads them. *)
Definition parseSession (allImagePointsJS objPointsJS : Js.val)
  : Exec (list (list Point2f) * list (list Point3f)) :=
  (N <- defined (Js.length_as_int allImagePointsJS) ;;
   _ <- defined (Js.length_as_int objPointsJS) ;;
   imagePoints <- collect (fun i => parseImageView (Js.at_ allImagePointsJS i)) 0 N ;;
   objectPoints <- reconcileObjectPoints objPointsJS N ;;
   Ret (imagePoints, objectPoints))%exec.

(** How a call of the exported function ends. *)
Inductive WasmReturn : Type :=
| WResult (r : CalibrationResult)
  (** the result object: success, rms, perViewErrors, ... *)
| WError (what : string)
  (** the object with the single field [error] (lines 216-218) *)
| WEscaped (what : string)
  (** a [cv::Exception] leaves [calibrateCamera] uncaught *)
| WUndefined.

Definition calibrateCamera (allImagePointsJS objPointsJS : Js.val)
           (w h : Z) : WasmReturn :=
  match parseSession allImagePointsJS objPointsJS with
  | Ret (imagePoints, objectPoints) =>
      match cv_calibrateCamera objectPoints imagePoints (mkSize w h) with
      | Raise what => WError what
      | Ok out =>
          match reprojectionErrors objectPoints imagePoints out with
          | Ret perViewErrors => WResult (resultOf out perViewErrors)
          | Thrown what => WEscaped what
          | Undefined => WUndefined
          end
      end
  | Thrown what => WEscaped what
  | Undefined => WUndefined
  end.

(** The only error object of this front end is built in the handler
    around the solver call. *)
Definition wasm_error_kind (r : WasmReturn) : option ErrorKind :=
  match r with
  | WError _ => Some CalibrationSolverError
  | _ => None
  end.

(* -------------------------------------------------------------- *)
(** *** File front end: [calibrate_camera.cpp] [main] *)

(** The [ifstream].  An extraction hands back whatever is in the
    target afterwards (the number read, 0 after a failed parse, or the
    old content when the stream had already failed) and the stream
    that remains. *)
Variable IStream : Type.
Variable extract_int : IStream -> Z * IStream.
Variable extract_float : IStream -> double * IStream.
Variable fail : IStream -> bool.

(** Lines 52-54. *)
Fixpoint readImagePoints (M : nat) (s : IStream) : list Point2f * IStream :=
  match M with
  | O => ([], s)
  | S M' =>
      let (x, s1) := extract_float s in
      let (y, s2) := extract_float s1 in
      let (rest, s3) := readImagePoints M' s2 in
      (mkPoint2f x y :: rest, s3)
  end.

(** Lines 55-57. *)
Fixpoint readObjectPoints (M : nat) (s : IStream) : list Point3f * IStream :=
  match M with
  | O => ([], s)
  | S M' =>
      let (x, s1) := extract_float s in
      let (y, s2) := extract_float s1 in
      let (z, s3) := extract_float s2 in
      let (rest, s4) := readObjectPoints M' s3 in
      (mkPoint3f x y z :: rest, s4)
  end.

(** Lines 46-58, for the [n] views still to read.  [resize(M)] with a
    negative [M] asks for more than [max_size()] elements and throws
    [std::length_error], which nothing catches: [None]. *)
Fixpoint readViews (n : nat) (s : IStream)
  : option (list (list Point2f) * list (list Point3f)) :=
  match n with
  | O => Some ([], [])
  | S n' =>
      let (M, s1) := extract_int s in
      if M <? 0 then None
      else
        let (imgs, s2) := readImagePoints (Z.to_nat M) s1 in
        let (objs, s3) := readObjectPoints (Z.to_nat M) s2 in
        match readViews n' s3 with
        | Some (imagePoints, objectPoints) =>
            Some (imgs :: imagePoints, objs :: objectPoints)
        | None => None
        end
  end.

(** What [main] writes to standard output. *)
Inductive Payload : Type :=
| PError (msg : string)
  (** an object with the single field [error] *)
| PFailure (msg : string)
  (** success: false, error: msg *)
| PResult (r : CalibrationResult).
  (** success: true, rms, camera_matrix, dist_coeffs, rvecs, tvecs, perViewErrors *)

Inductive CliExit : Type :=
| Exit (code : Z) (out : Payload)
| Terminated
  (** an exception no handler catches ends the process *)
| CliUndefined.

(** After the header: lines 42-58. *)
Inductive Parsed : Type :=
| InvalidHeader
| LengthError
| Session (imageSize : Size) (imagePoints : list (list Point2f))
          (objectPoints : list (list Point3f)).

Definition parseDataFile (infile : IStream) : Parsed :=
  let (w, s1) := extract_int infile in
  let (h, s2) := extract_int s1 in
  let (N, s3) := extract_int s2 in
  if fail s3 then InvalidHeader
  else if N <? 0 then LengthError
  else match readViews (Z.to_nat N) s3 with
       | Some (imagePoints, objectPoints) =>
           Session (mkSize w h) imagePoints objectPoints
       | None => LengthError
       end.

(** [main] once [argv[1]] is there; [infile] is [None] when the file
    could not be opened.  ([totalError] is accumulated by the source
    and never used.) *)
Definition calibrate_main (infile : option IStream) : CliExit :=
  match infile with
  | None => Exit 1 (PError "Could not open data file")
  | Some s =>
      match parseDataFile s with
      | InvalidHeader => Exit 1 (PError "Invalid data header")
      | LengthError => Terminated
      | Session imageSize imagePoints objectPoints =>
          match cv_calibrateCamera objectPoints imagePoints imageSize with
          | Raise what =>
              Exit 0 (PFailure ("OpenCV Calibration Error: " ++ what))
          | Ok out =>
              match reprojectionErrors objectPoints imagePoints out with
              | Ret perViewErrors => Exit 0 (PResult (resultOf out perViewErrors))
              | Thrown what =>
                  Exit 0 (PFailure ("OpenCV Reprojection Error: " ++ what))
              | Undefined => CliUndefined
              end
          end
      end
  end.

(** The catch site that built a failure payload, by the text it put
    in front of [e.what()]. *)
Definition cli_error_kind (e : CliExit) : option ErrorKind :=
  match e with
  | Exit _ (PFailure msg) =>
      if String.prefix "OpenCV Calibration Error: " msg
      then Some CalibrationSolverError
      else if String.prefix "OpenCV Reprojection Error: " msg
           then Some ReprojectionError
           else None
  | Exit _ (PError _) => Some InvalidInput
  | _ => None
  end.
End Core.
End Calib.

(* ================================================================== *)
(** * Properties *)

(** ** Machine arithmetic stays exact where the program uses it *)

Lemma wrap_in_range (z : Z) : Int.in_range z -> Int.wrap z = z.
Proof.
  unfold Int.in_range, Int.INT_MIN, Int.INT_MAX, Int.wrap; intros Hz.
  rewrite Z.mod_small by lia. lia.
Qed.

Lemma int_sub_exact (a b : Z) : Int.in_range (a - b) -> Int.sub a b = a - b.
Proof. apply wrap_in_range. Qed.

Lemma int_add_exact (a b : Z) : Int.in_range (a + b) -> Int.add a b = a + b.
Proof. apply wrap_in_range. Qed.

Lemma int_mul_exact (a b : Z) : Int.in_range (a * b) -> Int.mul a b = a * b.
Proof. apply wrap_in_range. Qed.

Lemma int_of_size_exact (n : nat) :
  Z.of_nat n <= Int.INT_MAX -> Int.of_size n = Z.of_nat n.
Proof.
  intros Hn. apply wrap_in_range. unfold Int.in_range, Int.INT_MIN. lia.
Qed.

Lemma board_area_in_range (r c : Z) :
  3 <= r <= 20 -> 3 <= c <= 20 -> Int.in_range (r * c).
Proof. unfold Int.in_range, Int.INT_MIN, Int.INT_MAX. nia. Qed.

Lemma gtb_false_iff (a b : Z) : (a >? b) = false <-> a <= b.
Proof. rewrite Z.gtb_ltb. apply Z.ltb_ge. Qed.

Lemma gtb_true_iff (a b : Z) : (a >? b) = true <-> b < a.
Proof. rewrite Z.gtb_ltb. apply Z.ltb_lt. Qed.

(** ** An insertion sort that meets the contract of [std::sort]

    Insertion from the right end puts an element behind the equivalent
    ones already placed, so the plain fold reverses the order of ties and
    the fold over the reversed input keeps it. *)

Section InsertionSort.
Variable A : Type.
Variable comp : A -> A -> bool.

Fixpoint insert (x : A) (l : list A) : list A :=
  match l with
  | [] => [x]
  | y :: l' => if comp x y then x :: l else y :: insert x l'
  end.

Definition tie_reversing_sort (l : list A) : list A := fold_right insert [] l.
Definition tie_keeping_sort (l : list A) : list A := tie_reversing_sort (rev l).

Lemma insert_permutation (x : A) (l : list A) : Permutation (x :: l) (insert x l).
Proof.
  induction l as [|y l IH]; simpl.
  - reflexivity.
  - destruct (comp x y).
    + reflexivity.
    + rewrite perm_swap. now constructor.
Qed.

Lemma tie_reversing_sort_permutation (l : list A) :
  Permutation l (tie_reversing_sort l).
Proof.
  induction l as [|x l IH]; simpl.
  - constructor.
  - etransitivity; [ | apply insert_permutation ]. now constructor.
Qed.

Lemma tie_keeping_sort_permutation (l : list A) :
  Permutation l (tie_keeping_sort l).
Proof.
  unfold tie_keeping_sort.
  etransitivity; [ apply Permutation_rev | apply tie_reversing_sort_permutation ].
Qed.

Hypothesis comp_swo : StrictWeakOrdering comp.

Lemma comp_asym (a b : A) : comp a b = true -> comp b a = false.
Proof.
  intros Hab. destruct (comp b a) eqn:Hba; [ | reflexivity ].
  rewrite <- (swo_irrefl comp_swo a). symmetry.
  now apply (swo_trans comp_swo) with b.
Qed.

Lemma insert_sorted (x : A) (l : list A) :
  sorted_by comp l -> sorted_by comp (insert x l).
Proof.
  unfold sorted_by. induction l as [|y l IH]; simpl; intros Hs.
  - repeat constructor.
  - inversion Hs as [|? ? Hl Hy]; subst.
    destruct (comp x y) eqn:Hxy.
    + constructor; [ assumption | ].
      constructor; [ now apply comp_asym | ].
      rewrite Forall_forall in *. intros z Hz.
      destruct (comp z x) eqn:Hzx; [ | reflexivity ].
      rewrite <- (Hy z Hz). symmetry.
      now apply (swo_trans comp_swo) with x.
    + constructor; [ now apply IH | ].
      rewrite Forall_forall in *. intros z Hz.
      apply (Permutation_in _ (Permutation_sym (insert_permutation x l))) in Hz.
      destruct Hz as [<- | Hz]; [ assumption | now apply Hy ].
Qed.

Lemma tie_reversing_sort_sorted (l : list A) : sorted_by comp (tie_reversing_sort l).
Proof.
  induction l as [|x l IH]; simpl.
  - constructor.
  - now apply insert_sorted.
Qed.

Lemma tie_keeping_sort_sorted (l : list A) : sorted_by comp (tie_keeping_sort l).
Proof. apply tie_reversing_sort_sorted. Qed.
End InsertionSort.

Definition keeping_std_sort : StdSort :=
  {| std_sort := tie_keeping_sort;
     std_sort_permutation := tie_keeping_sort_permutation;
     std_sort_sorted := fun A comp l H => tie_keeping_sort_sorted H l |}.

(** ** libstdc++'s sort meets the contract *)

Section GnuSortFacts.
Variable A : Type.
Variable comp : A -> A -> bool.

Lemma set_nth_swaps_out (a : list A) :
  forall j x x',
    nth_error a j = Some x ->
    Permutation (x' :: a) (x :: Gnu.set_nth j x' a).
Proof.
  induction a as [|h t IH]; intros [|j] x x'; simpl; try discriminate.
  - intros [= ->]. apply perm_swap.
  - intros Hj. rewrite perm_swap. rewrite (IH j x x' Hj). apply perm_swap.
Qed.

Lemma nth_error_set_nth (a : list A) :
  forall i j x y,
    nth_error a i = Some x -> nth_error a j = Some y ->
    nth_error (Gnu.set_nth j x a) i = Some x.
Proof.
  induction a as [|h t IH]; intros [|i] [|j] x y; simpl; try discriminate; auto.
  apply IH.
Qed.

Lemma iter_swap_permutation (i j : nat) (a : list A) :
  Permutation a (Gnu.iter_swap i j a).
Proof.
  unfold Gnu.iter_swap.
  destruct (nth_error a i) as [x|] eqn:Hi; [ | reflexivity ].
  destruct (nth_error a j) as [y|] eqn:Hj; [ | reflexivity ].
  apply Permutation_cons_inv with x.
  rewrite (set_nth_swaps_out a j x Hj).
  apply set_nth_swaps_out. now apply nth_error_set_nth with y.
Qed.

Lemma move_median_to_first_permutation (result ia ib ic : nat) (a : list A) :
  Permutation a (Gnu.move_median_to_first comp result ia ib ic a).
Proof.
  unfold Gnu.move_median_to_first.
  repeat match goal with
         | |- context [if ?b then _ else _] => destruct b
         end; apply iter_swap_permutation.
Qed.

Lemma unguarded_partition_permutation (fuel : nat) :
  forall first last pivot a,
    Permutation a (snd (Gnu.unguarded_partition comp fuel first last pivot a)).
Proof.
  induction fuel as [|fuel IH]; intros first last pivot a; simpl.
  - reflexivity.
  - destruct (_ <? _)%nat; [ | reflexivity ].
    etransitivity; [ apply iter_swap_permutation | apply IH ].
Qed.

Lemma unguarded_partition_pivot_permutation (first last : nat) (a : list A) :
  Permutation a (snd (Gnu.unguarded_partition_pivot comp first last a)).
Proof.
  unfold Gnu.unguarded_partition_pivot.
  etransitivity; [ apply move_median_to_first_permutation | ].
  apply unguarded_partition_permutation.
Qed.

Lemma push_heap_permutation (fuel : nat) :
  forall first holeIndex topIndex a,
    Permutation a (Gnu.push_heap comp fuel first holeIndex topIndex a).
Proof.
  induction fuel as [|fuel IH]; intros first holeIndex topIndex a; simpl.
  - reflexivity.
  - destruct (_ && _); [ | reflexivity ].
    etransitivity; [ apply iter_swap_permutation | apply IH ].
Qed.

Lemma sift_down_permutation (fuel : nat) :
  forall first holeIndex secondChild len a,
    Permutation a (snd (Gnu.sift_down comp fuel first holeIndex secondChild len a)).
Proof.
  induction fuel as [|fuel IH]; intros first holeIndex secondChild len a; simpl.
  - reflexivity.
  - destruct (_ <? _)%nat; [ | reflexivity ].
    etransitivity; [ apply iter_swap_permutation | apply IH ].
Qed.

Lemma adjust_heap_permutation (first holeIndex len : nat) (a : list A) :
  Permutation a (Gnu.adjust_heap comp first holeIndex len a).
Proof.
  unfold Gnu.adjust_heap.
  pose proof (sift_down_permutation (List.length a) first holeIndex holeIndex len a)
    as Hsift.
  destruct (Gnu.sift_down comp (List.length a) first holeIndex holeIndex len a)
    as [[hole secondChild] a1].
  simpl in Hsift.
  destruct (_ && _).
  - etransitivity; [ exact Hsift | ].
    etransitivity; [ apply iter_swap_permutation | apply push_heap_permutation ].
  - etransitivity; [ exact Hsift | apply push_heap_permutation ].
Qed.

Lemma pop_heap_permutation (first last result : nat) (a : list A) :
  Permutation a (Gnu.pop_heap comp first last result a).
Proof.
  unfold Gnu.pop_heap.
  etransitivity; [ apply iter_swap_permutation | apply adjust_heap_permutation ].
Qed.

Lemma make_heap_from_permutation (parent : nat) :
  forall first len a, Permutation a (Gnu.make_heap_from comp parent first len a).
Proof.
  induction parent as [|parent IH]; intros first len a; simpl.
  - apply adjust_heap_permutation.
  - etransitivity; [ apply adjust_heap_permutation | apply IH ].
Qed.

Lemma make_heap_permutation (first last : nat) (a : list A) :
  Permutation a (Gnu.make_heap comp first last a).
Proof.
  unfold Gnu.make_heap. destruct (_ <? _)%nat; [ reflexivity | ].
  apply make_heap_from_permutation.
Qed.

Lemma heap_select_from_permutation (n : nat) :
  forall i first middle a,
    Permutation a (Gnu.heap_select_from comp n i first middle a).
Proof.
  induction n as [|n IH]; intros i first middle a; simpl.
  - reflexivity.
  - etransitivity; [ | apply IH ].
    destruct (Gnu.comp_at comp i first a); [ apply pop_heap_permutation | reflexivity ].
Qed.

Lemma sort_heap_len_permutation (len : nat) :
  forall first a, Permutation a (Gnu.sort_heap_len comp len first a).
Proof.
  induction len as [|len IH]; intros first a; [ reflexivity | ].
  destruct len as [|len]; [ reflexivity | ].
  change (Permutation a
            (Gnu.sort_heap_len comp (S len) first
               (Gnu.pop_heap comp first (first + S len) (first + S len) a))).
  etransitivity; [ apply pop_heap_permutation | apply IH ].
Qed.

Lemma partial_sort_permutation (first middle last : nat) (a : list A) :
  Permutation a (Gnu.partial_sort comp first middle last a).
Proof.
  unfold Gnu.partial_sort, Gnu.sort_heap, Gnu.heap_select.
  etransitivity; [ apply make_heap_permutation | ].
  etransitivity; [ apply heap_select_from_permutation | ].
  apply sort_heap_len_permutation.
Qed.

Lemma introsort_loop_permutation (depth_limit : nat) :
  forall first last a,
    Permutation a (Gnu.introsort_loop comp depth_limit first last a).
Proof.
  induction depth_limit as [|depth_limit IH]; intros first last a; simpl.
  - destruct (_ <? _)%nat; [ apply partial_sort_permutation | reflexivity ].
  - destruct (_ <? _)%nat; [ | reflexivity ].
    pose proof (unguarded_partition_pivot_permutation first last a) as Hcut.
    destruct (Gnu.unguarded_partition_pivot comp first last a) as [cut a1].
    simpl in Hcut.
    etransitivity; [ exact Hcut | ].
    etransitivity; [ apply IH | apply IH ].
Qed.

(** The insertion routines. *)

Lemma shift_in_permutation (val : A) (before : list A) :
  Permutation (val :: before) (Gnu.shift_in comp val before).
Proof.
  induction before as [|next before IH]; simpl; [ reflexivity | ].
  destruct (comp val next); [ | reflexivity ].
  rewrite perm_swap. now constructor.
Qed.

Lemma unguarded_linear_insert_permutation (sorted : list A) (val : A) :
  Permutation (val :: sorted) (Gnu.unguarded_linear_insert comp sorted val).
Proof.
  unfold Gnu.unguarded_linear_insert.
  rewrite <- Permutation_rev, <- shift_in_permutation.
  constructor. apply Permutation_rev.
Qed.

Lemma guarded_insert_permutation (sorted : list A) (val : A) :
  Permutation (val :: sorted) (Gnu.guarded_insert comp sorted val).
Proof.
  unfold Gnu.guarded_insert. destruct sorted as [|first rest]; [ reflexivity | ].
  destruct (comp val first); [ reflexivity | ].
  apply unguarded_linear_insert_permutation.
Qed.

Lemma fold_insert_permutation (ins : list A -> A -> list A) :
  (forall sorted val, Permutation (val :: sorted) (ins sorted val)) ->
  forall rest sorted, Permutation (sorted ++ rest) (fold_left ins rest sorted).
Proof.
  intros Hins. induction rest as [|x rest IH]; intros sorted; simpl.
  - now rewrite app_nil_r.
  - rewrite <- IH, <- Hins. apply Permutation_sym, Permutation_middle.
Qed.

Lemma final_insertion_sort_permutation (a : list A) :
  Permutation a (Gnu.final_insertion_sort comp a).
Proof.
  unfold Gnu.final_insertion_sort, Gnu.unguarded_insertion_sort, Gnu.insertion_sort.
  destruct (_ <? _)%nat.
  - rewrite <- (fold_insert_permutation _ unguarded_linear_insert_permutation).
    rewrite <- (fold_insert_permutation _ guarded_insert_permutation).
    rewrite app_nil_l. now rewrite firstn_skipn.
  - now rewrite <- (fold_insert_permutation _ guarded_insert_permutation).
Qed.

Lemma gnu_sort_permutation (a : list A) : Permutation a (Gnu.sort comp a).
Proof.
  unfold Gnu.sort. destruct a as [|x a]; [ reflexivity | ].
  etransitivity; [ apply introsort_loop_permutation | ].
  apply final_insertion_sort_permutation.
Qed.

Hypothesis comp_swo : StrictWeakOrdering comp.

(** The sorted part read from the right: nothing precedes what stands
    before it. *)
Definition descending (l : list A) : Prop :=
  StronglySorted (fun a b => comp a b = false) l.

Lemma not_below_trans (x y z : A) :
  comp x y = false -> comp y z = false -> comp x z = false.
Proof.
  intros Hxy Hyz. destruct (comp x z) eqn:Hxz; [ | reflexivity ].
  rewrite <- Hxy. symmetry.
  destruct (comp x y) eqn:Hxy'; [ reflexivity | ].
  destruct (comp z y) eqn:Hzy.
  - rewrite <- Hxy'. now apply (swo_trans comp_swo) with z.
  - destruct (comp y x) eqn:Hyx.
    + rewrite <- Hyz. now apply (swo_trans comp_swo) with x.
    + destruct (swo_equiv_trans comp_swo x y z Hxy' Hyx Hyz Hzy). congruence.
Qed.

Lemma shift_in_descending (val : A) (before : list A) :
  descending before -> descending (Gnu.shift_in comp val before).
Proof.
  unfold descending. induction before as [|next before IH]; simpl; intros Hs.
  - repeat constructor.
  - inversion Hs as [|? ? Hrest Hnext]; subst.
    destruct (comp val next) eqn:Hv.
    + constructor; [ now apply IH | ].
      rewrite Forall_forall in *. intros z Hz.
      apply (Permutation_in _ (Permutation_sym (shift_in_permutation val before)))
        in Hz.
      destruct Hz as [<- | Hz]; [ | now apply Hnext ].
      destruct (comp next val) eqn:Hnv; [ | reflexivity ].
      rewrite <- (swo_irrefl comp_swo val). symmetry.
      now apply (swo_trans comp_swo) with next.
    + constructor; [ assumption | ].
      constructor; [ assumption | ].
      rewrite Forall_forall in *. intros z Hz.
      apply not_below_trans with next; [ assumption | now apply Hnext ].
Qed.

Lemma StronglySorted_app (R : A -> A -> Prop) (l1 l2 : list A) :
  StronglySorted R l1 -> StronglySorted R l2 ->
  (forall a b, In a l1 -> In b l2 -> R a b) ->
  StronglySorted R (l1 ++ l2).
Proof.
  induction l1 as [|x l1 IH]; simpl; intros H1 H2 H12; [ assumption | ].
  inversion H1 as [|? ? Hl1 Hx]; subst. constructor.
  - apply IH; [ assumption | assumption | ].
    intros a b Ha Hb. apply H12; [ now right | assumption ].
  - rewrite Forall_forall in *. intros b Hb.
    apply in_app_or in Hb as [Hb | Hb]; [ now apply Hx | ].
    apply H12; [ now left | assumption ].
Qed.

Lemma StronglySorted_rev (R : A -> A -> Prop) (l : list A) :
  StronglySorted R l -> StronglySorted (fun a b => R b a) (rev l).
Proof.
  induction 1 as [|x l Hl IH Hx]; simpl; [ constructor | ].
  apply StronglySorted_app; [ assumption | repeat constructor | ].
  intros a b Ha [<- | []]. rewrite Forall_forall in Hx.
  apply Hx. now apply in_rev.
Qed.

Lemma unguarded_linear_insert_sorted (sorted : list A) (val : A) :
  sorted_by comp sorted ->
  sorted_by comp (Gnu.unguarded_linear_insert comp sorted val).
Proof.
  unfold sorted_by, Gnu.unguarded_linear_insert. intros Hs.
  apply StronglySorted_rev with (R := fun a b => comp a b = false).
  apply shift_in_descending.
  now apply StronglySorted_rev with (R := fun a b => comp b a = false).
Qed.

Lemma guarded_insert_sorted (sorted : list A) (val : A) :
  sorted_by comp sorted -> sorted_by comp (Gnu.guarded_insert comp sorted val).
Proof.
  unfold Gnu.guarded_insert. destruct sorted as [|first rest]; intros Hs.
  - repeat constructor.
  - destruct (comp val first) eqn:Hv; [ | now apply unguarded_linear_insert_sorted ].
    constructor; [ assumption | ].
    inversion Hs as [|? ? _ Hfirst]; subst.
    constructor.
    + destruct (comp first val) eqn:Hfv; [ | reflexivity ].
      rewrite <- (swo_irrefl comp_swo val). symmetry.
      now apply (swo_trans comp_swo) with first.
    + rewrite Forall_forall in *. intros z Hz.
      destruct (comp z val) eqn:Hzv; [ | reflexivity ].
      rewrite <- (Hfirst z Hz). symmetry.
      now apply (swo_trans comp_swo) with val.
Qed.

Lemma fold_insert_sorted (ins : list A -> A -> list A) :
  (forall sorted val, sorted_by comp sorted -> sorted_by comp (ins sorted val)) ->
  forall rest sorted,
    sorted_by comp sorted -> sorted_by comp (fold_left ins rest sorted).
Proof.
  intros Hins. induction rest as [|x rest IH]; intros sorted Hs; simpl.
  - assumption.
  - apply IH. now apply Hins.
Qed.

Lemma final_insertion_sort_sorted (a : list A) :
  sorted_by comp (Gnu.final_insertion_sort comp a).
Proof.
  unfold Gnu.final_insertion_sort, Gnu.unguarded_insertion_sort, Gnu.insertion_sort.
  destruct (_ <? _)%nat.
  - apply (fold_insert_sorted _ unguarded_linear_insert_sorted).
    apply (fold_insert_sorted _ guarded_insert_sorted). constructor.
  - apply (fold_insert_sorted _ guarded_insert_sorted). constructor.
Qed.

Lemma gnu_sort_sorted (a : list A) : sorted_by comp (Gnu.sort comp a).
Proof.
  unfold Gnu.sort. destruct a as [|x a]; [ constructor | ].
  apply final_insertion_sort_sorted.
Qed.
End GnuSortFacts.

(** [std::sort] of libstdc++, with the contract it meets. *)
Definition gnu_std_sort : StdSort :=
  {| std_sort := Gnu.sort;
     std_sort_permutation := gnu_sort_permutation;
     std_sort_sorted := fun A comp l H => gnu_sort_sorted H l |}.

(** ** The generated candidates *)

(** The values a counting loop runs through. *)
Fixpoint zseq (v : Z) (n : nat) : list Z :=
  match n with
  | O => []
  | S n' => v :: zseq (v + 1) n'
  end.

Definition range_3_20 : list Z := zseq 3 18.

(** Every board the two loops visit, in visiting order. *)
Definition allBoards : list Size :=
  flat_map (fun r => map (fun c => mkSize c r) range_3_20) range_3_20.

(** The test of line 70, read off a candidate. *)
Definition withinCount (detectedCount : Z) (s : Size) : bool :=
  Int.mul (height s) (width s) <=? Int.add detectedCount 20.

Definition area (s : Size) : Z := width s * height s.

Fixpoint nodupb (l : list Size) : bool :=
  match l with
  | [] => true
  | s :: l' => negb (existsb (Size_eqb s) l') && nodupb l'
  end.

Lemma in_zseq (x v : Z) (n : nat) : In x (zseq v n) <-> v <= x < v + Z.of_nat n.
Proof.
  revert v. induction n as [|n IH]; intros v; simpl zseq.
  - simpl. lia.
  - simpl In. rewrite IH. lia.
Qed.

Lemma in_range_3_20 (x : Z) : In x range_3_20 <-> 3 <= x <= 20.
Proof. unfold range_3_20. rewrite in_zseq. simpl. lia. Qed.

Lemma for_upto_pushes (body : Z -> list Size -> list Size) (g : Z -> list Size) :
  (forall v acc, body v acc = acc ++ g v) ->
  forall n v acc,
    Candidates.for_upto n v body acc = acc ++ flat_map g (zseq v n).
Proof.
  intros Hbody. induction n as [|n IH]; intros v acc; simpl.
  - now rewrite app_nil_r.
  - rewrite IH, Hbody. now rewrite <- app_assoc.
Qed.

Lemma filter_map_singleton (A B : Type) (p : B -> bool) (f : A -> B) (l : list A) :
  flat_map (fun a => if p (f a) then [f a] else []) l = filter p (map f l).
Proof.
  induction l as [|a l IH]; simpl; [ reflexivity | ].
  rewrite IH. now destruct (p (f a)).
Qed.

Lemma filter_flat_map (A B : Type) (p : B -> bool) (f : A -> list B) (l : list A) :
  flat_map (fun a => filter p (f a)) l = filter p (flat_map f l).
Proof.
  induction l as [|a l IH]; simpl; [ reflexivity | ].
  now rewrite IH, filter_app.
Qed.

(** The loops keep, in visiting order, the boards that pass the test. *)
Lemma autoCandidates_filter (detectedCount : Z) :
  Candidates.autoCandidates detectedCount
  = filter (withinCount detectedCount) allBoards.
Proof.
  unfold Candidates.autoCandidates, Candidates.for_3_to_20, allBoards.
  rewrite for_upto_pushes
    with (g := fun r => filter (withinCount detectedCount)
                               (map (fun c => mkSize c r) range_3_20)).
  - rewrite app_nil_l. apply filter_flat_map.
  - intros r acc.
    rewrite for_upto_pushes
      with (g := fun c => if withinCount detectedCount (mkSize c r)
                          then [mkSize c r] else []).
    + f_equal. apply filter_map_singleton with (f := fun c => mkSize c r).
    + intros c acc'. unfold withinCount; cbn [height width].
      destruct (Int.mul r c <=? Int.add detectedCount 20);
        [ reflexivity | now rewrite app_nil_r ].
Qed.

Lemma in_allBoards (s : Size) :
  In s allBoards <-> 3 <= height s <= 20 /\ 3 <= width s <= 20.
Proof.
  unfold allBoards. rewrite in_flat_map. split.
  - intros (r & Hr & Hs). apply in_map_iff in Hs as (c & <- & Hc).
    apply in_range_3_20 in Hr, Hc. simpl. lia.
  - intros [Hh Hw]. exists (height s). split; [ now apply in_range_3_20 | ].
    apply in_map_iff. exists (width s). split; [ now destruct s | now apply in_range_3_20 ].
Qed.

Lemma Size_eqb_eq (a b : Size) : Size_eqb a b = true <-> a = b.
Proof.
  unfold Size_eqb. rewrite andb_true_iff, !Z.eqb_eq.
  destruct a, b; simpl. split; [ intros [-> ->]; reflexivity | intros [= -> ->]; auto ].
Qed.

Lemma nodupb_NoDup (l : list Size) : nodupb l = true <-> NoDup l.
Proof.
  induction l as [|s l IH]; simpl.
  - split; [ constructor | reflexivity ].
  - rewrite andb_true_iff, negb_true_iff, IH. split.
    + intros [Hn Hl]. constructor; [ | assumption ].
      intros Hin. apply not_true_iff_false in Hn. apply Hn.
      apply existsb_exists. exists s. split; [ assumption | now apply Size_eqb_eq ].
    + intros Hnd. inversion Hnd as [|? ? Hn Hl]; subst. split; [ | assumption ].
      apply not_true_iff_false. intros Hex.
      apply existsb_exists in Hex as (s' & Hin & Heq).
      apply Size_eqb_eq in Heq. now subst.
Qed.

Lemma NoDup_allBoards : NoDup allBoards.
Proof. apply nodupb_NoDup. vm_compute. reflexivity. Qed.

Lemma NoDup_autoCandidates (detectedCount : Z) :
  NoDup (Candidates.autoCandidates detectedCount).
Proof. rewrite autoCandidates_filter. apply NoDup_filter, NoDup_allBoards. Qed.

Lemma in_autoCandidates (detectedCount : Z) (s : Size) :
  In s (Candidates.autoCandidates detectedCount)
  <-> (3 <= height s <= 20 /\ 3 <= width s <= 20)
      /\ Int.mul (height s) (width s) <= Int.add detectedCount 20.
Proof.
  rewrite autoCandidates_filter, filter_In, in_allBoards.
  unfold withinCount. now rewrite Z.leb_le.
Qed.

Lemma byAreaDesc_swo : StrictWeakOrdering Candidates.byAreaDesc.
Proof.
  unfold Candidates.byAreaDesc. constructor.
  - intros a. apply gtb_false_iff. lia.
  - intros a b c. rewrite !gtb_true_iff. lia.
  - intros a b c. rewrite !gtb_false_iff. lia.
Qed.

Lemma StronglySorted_weaken (A : Type) (R R' : A -> A -> Prop) (l : list A) :
  (forall a b, In a l -> In b l -> R a b -> R' a b) ->
  StronglySorted R l -> StronglySorted R' l.
Proof.
  induction l as [|x l IH]; intros Himp Hs.
  - constructor.
  - inversion Hs as [|? ? Hl Hx]; subst. constructor.
    + apply IH; [ | assumption ]. intros a b Ha Hb. apply Himp; now right.
    + rewrite Forall_forall in *. intros y Hy.
      apply Himp; [ now left | now right | now apply Hx ].
Qed.

Section AutoMode.
Variable S : StdSort.

Lemma in_autoSizes (detectedCount : Z) (s : Size) :
  In s (Candidates.autoSizes S detectedCount)
  <-> In s (Candidates.autoCandidates detectedCount).
Proof.
  unfold Candidates.autoSizes. split; apply Permutation_in.
  - symmetry. apply std_sort_permutation.
  - apply std_sort_permutation.
Qed.

Lemma NoDup_autoSizes (detectedCount : Z) :
  NoDup (Candidates.autoSizes S detectedCount).
Proof.
  unfold Candidates.autoSizes.
  eapply Permutation_NoDup; [ apply std_sort_permutation | apply NoDup_autoCandidates ].
Qed.

Lemma autoSizes_area_descending (detectedCount : Z) :
  StronglySorted (fun a b => area a >= area b)
                 (Candidates.autoSizes S detectedCount).
Proof.
  apply StronglySorted_weaken
    with (R := fun a b => Candidates.byAreaDesc b a = false).
  - intros a b Ha Hb. unfold Candidates.byAreaDesc, area.
    apply in_autoSizes, in_autoCandidates in Ha, Hb.
    destruct Ha as [[Ha1 Ha2] _], Hb as [[Hb1 Hb2] _].
    rewrite gtb_false_iff, !int_mul_exact by now apply board_area_in_range.
    lia.
  - apply (std_sort_sorted S), byAreaDesc_swo.
Qed.
End AutoMode.

(** Membership in the auto-mode list, with the machine arithmetic
    resolved. *)
Lemma autoSizes_members (S : StdSort) (detectedCount : Z) :
  0 <= detectedCount <= Int.INT_MAX - 20 ->
  forall r c,
    In (mkSize c r) (Candidates.autoSizes S detectedCount)
    <-> 3 <= r <= 20 /\ 3 <= c <= 20 /\ r * c <= detectedCount + 20.
Proof.
  intros Hd r c. rewrite in_autoSizes, in_autoCandidates. cbn [height width].
  rewrite int_add_exact
    by (unfold Int.in_range, Int.INT_MIN, Int.INT_MAX in *; lia).
  split.
  - intros [[Hr Hc] Hle].
    rewrite int_mul_exact in Hle by now apply board_area_in_range. tauto.
  - intros (Hr & Hc & Hle).
    rewrite int_mul_exact by now apply board_area_in_range. tauto.
Qed.

(** The order the specification asks of the auto-mode list: area
    descending, equal areas by rows ([height]) ascending, then by columns
    ([width]) ascending. *)
Definition areaThenRowsThenCols (a b : Size) : Prop :=
  area a > area b
  \/ (area a = area b
      /\ (height a < height b \/ (height a = height b /\ width a <= width b))).

(** What libstdc++'s [std::sort] leaves in [sizesToTry] for 40 detected
    features: the 85 sizes of area at most 60. *)
Definition sorted_for_40_features : list Size :=
  [mkSize 20 3; mkSize 5 12; mkSize 15 4; mkSize 10 6; mkSize 12 5;
   mkSize 4 15; mkSize 3 20; mkSize 6 10; mkSize 3 19; mkSize 19 3;
   mkSize 4 14; mkSize 14 4; mkSize 8 7; mkSize 7 8; mkSize 11 5;
   mkSize 5 11; mkSize 18 3; mkSize 6 9; mkSize 3 18; mkSize 9 6;
   mkSize 4 13; mkSize 13 4; mkSize 17 3; mkSize 3 17; mkSize 5 10;
   mkSize 10 5; mkSize 7 7; mkSize 8 6; mkSize 12 4; mkSize 6 8; mkSize 3 16;
   mkSize 4 12; mkSize 16 3; mkSize 9 5; mkSize 3 15; mkSize 15 3;
   mkSize 5 9; mkSize 4 11; mkSize 11 4; mkSize 3 14; mkSize 6 7;
   mkSize 14 3; mkSize 7 6; mkSize 8 5; mkSize 5 8; mkSize 10 4; mkSize 4 10;
   mkSize 13 3; mkSize 3 13; mkSize 6 6; mkSize 9 4; mkSize 3 12; mkSize 4 9;
   mkSize 12 3; mkSize 7 5; mkSize 5 7; mkSize 3 11; mkSize 11 3; mkSize 8 4;
   mkSize 4 8; mkSize 10 3; mkSize 5 6; mkSize 6 5; mkSize 3 10; mkSize 7 4;
   mkSize 4 7; mkSize 3 9; mkSize 9 3; mkSize 5 5; mkSize 4 6; mkSize 3 8;
   mkSize 6 4; mkSize 8 3; mkSize 3 7; mkSize 7 3; mkSize 4 5; mkSize 5 4;
   mkSize 3 6; mkSize 6 3; mkSize 4 4; mkSize 3 5; mkSize 5 3; mkSize 3 4;
   mkSize 4 3; mkSize 3 3].

(** C3, as stated, fails: with detectedCount = 40 and the [std::sort] of
    libstdc++ the list starts with the boards of area 60 as Size(20,3),
    Size(5,12), Size(15,4), that is with rows 3, 12, 4: among equal areas
    the rows do not ascend.  (Quicksort's partitioning steps swap equal
    elements past each other; on the ten candidates of detectedCount = 0
    the same sort is a plain insertion sort and keeps their order.) *)
Lemma auto_tie_order_counterexample :
  Candidates.autoSizes gnu_std_sort 40 = sorted_for_40_features
  /\ ~ StronglySorted areaThenRowsThenCols (Candidates.autoSizes gnu_std_sort 40).
Proof.
  assert (Heq : Candidates.autoSizes gnu_std_sort 40 = sorted_for_40_features)
    by (vm_compute; reflexivity).
  split; [ exact Heq | ].
  rewrite Heq. unfold sorted_for_40_features.
  intros Hs. inversion Hs as [|? ? Htail _]; subst.
  inversion Htail as [|? ? _ Hall]; subst.
  inversion Hall as [|? ? Hthird _]; subst.
  unfold areaThenRowsThenCols, area in Hthird; simpl in Hthird. lia.
Qed.

(** On the ten candidates of detectedCount = 0 the same library sort
    leaves the order a tie-keeping sort gives. *)
Lemma gnu_sort_keeps_ten_candidates :
  Candidates.autoSizes gnu_std_sort 0 = Candidates.autoSizes keeping_std_sort 0.
Proof. vm_compute. reflexivity. Qed.

(** C3 (amended): for every feature estimate detectedCount (with
    detectedCount + 20 representable as an int) and every sort that meets
    the contract of std::sort, the auto-mode candidate list contains
    exactly the sizes (r, c) with 3 <= r, c <= 20 and r*c <= detectedCount
    + 20, each once, sorted by area descending; the order among equal
    areas is not fixed by the code. *)
Theorem auto_candidates_by_area (S : StdSort) (detectedCount : Z) :
  0 <= detectedCount <= Int.INT_MAX - 20 ->
  (forall r c,
      In (mkSize c r) (Candidates.autoSizes S detectedCount)
      <-> 3 <= r <= 20 /\ 3 <= c <= 20 /\ r * c <= detectedCount + 20)
  /\ NoDup (Candidates.autoSizes S detectedCount)
  /\ StronglySorted (fun a b => area a >= area b)
                    (Candidates.autoSizes S detectedCount).
Proof.
  intros Hd. split; [ | split ].
  - now apply autoSizes_members.
  - apply NoDup_autoSizes.
  - apply autoSizes_area_descending.
Qed.

Lemma auto_candidates_by_area_witness :
  0 <= 40 <= Int.INT_MAX - 20
  /\ (In (mkSize 6 10) (Candidates.autoSizes keeping_std_sort 40)
      <-> 3 <= 10 <= 20 /\ 3 <= 6 <= 20 /\ 10 * 6 <= 40 + 20)
  /\ ~ In (mkSize 9 9) (Candidates.autoSizes keeping_std_sort 40).
Proof.
  assert (H : 0 <= 40 <= Int.INT_MAX - 20) by (unfold Int.INT_MAX; lia).
  destruct (auto_candidates_by_area keeping_std_sort H) as [Hin _].
  split; [ exact H | split ].
  - apply Hin.
  - rewrite Hin. lia.
Defined.

(** ** What a tie-keeping sort would give

    The loops push the boards by rows ascending, then columns ascending;
    a sort that keeps the order of equal areas hands that order on.  The
    code does not ask for such a sort. *)

Section Stability.
Variable A : Type.
Variable comp : A -> A -> bool.
Variable before : A -> A -> Prop.
Hypothesis comp_swo : StrictWeakOrdering comp.

Definition keeps (a b : A) : Prop :=
  comp a b = true \/ (comp b a = false /\ before a b).

Lemma below_not_above (x y z : A) :
  comp x y = true -> comp z y = false -> comp x z = true.
Proof.
  intros Hxy Hzy. destruct (comp x z) eqn:Hxz; [ reflexivity | exfalso ].
  assert (Hzx : comp z x = false).
  { destruct (comp z x) eqn:Hzx; [ | reflexivity ].
    rewrite <- Hzy. symmetry. now apply (swo_trans comp_swo) with x. }
  assert (Hyz : comp y z = false).
  { destruct (comp y z) eqn:Hyz; [ | reflexivity ].
    rewrite <- Hxz. symmetry. now apply (swo_trans comp_swo) with y. }
  destruct (swo_equiv_trans comp_swo x z y Hxz Hzx Hzy Hyz) as [Hfalse _].
  congruence.
Qed.

Lemma insert_behind_equals (x : A) (l : list A) :
  StronglySorted keeps l -> Forall (fun y => before y x) l ->
  StronglySorted keeps (insert comp x l).
Proof.
  induction l as [|y l IH]; simpl; intros Hs Hb.
  - repeat constructor.
  - inversion Hs as [|? ? Hl Hy]; subst. inversion Hb as [|? ? Hyx Hlx]; subst.
    destruct (comp x y) eqn:Hxy.
    + constructor; [ assumption | ].
      constructor; [ now left | ].
      rewrite Forall_forall in *. intros z Hz. left.
      apply below_not_above with y; [ assumption | ].
      destruct (Hy z Hz) as [Hyz | [Hzy _]]; [ | assumption ].
      now apply (comp_asym comp_swo).
    + constructor; [ now apply IH | ].
      rewrite Forall_forall in *. intros z Hz.
      apply (Permutation_in _ (Permutation_sym (insert_permutation comp x l))) in Hz.
      destruct Hz as [<- | Hz]; [ right; now split | now apply Hy ].
Qed.

Lemma fold_insert_keeps (l : list A) :
  forall acc,
    StronglySorted keeps acc -> StronglySorted before l ->
    (forall a b, In a acc -> In b l -> before a b) ->
    StronglySorted keeps (fold_right (insert comp) acc (rev l)).
Proof.
  induction l as [|x l IH]; intros acc Hacc Hl Hab; simpl.
  - assumption.
  - rewrite fold_right_app. simpl.
    inversion Hl as [|? ? Hl' Hx]; subst.
    apply IH; [ | assumption | ].
    + apply insert_behind_equals; [ assumption | ].
      rewrite Forall_forall. intros a Ha. apply Hab; [ assumption | now left ].
    + intros a b Ha Hb.
      apply (Permutation_in _ (Permutation_sym (insert_permutation comp x acc))) in Ha.
      destruct Ha as [<- | Ha].
      * rewrite Forall_forall in Hx. now apply Hx.
      * apply Hab; [ assumption | now right ].
Qed.

Lemma tie_keeping_sort_keeps (l : list A) :
  StronglySorted before l -> StronglySorted keeps (tie_keeping_sort comp l).
Proof.
  intros Hl. unfold tie_keeping_sort, tie_reversing_sort.
  apply fold_insert_keeps; [ constructor | assumption | ].
  intros a b [].
Qed.
End Stability.

(** The order in which the loops visit the boards. *)
Definition rowsThenCols (a b : Size) : Prop :=
  height a < height b \/ (height a = height b /\ width a <= width b).

Definition rowsThenColsb (a b : Size) : bool :=
  (height a <? height b) || ((height a =? height b) && (width a <=? width b)).

Fixpoint visit_orderedb (l : list Size) : bool :=
  match l with
  | [] => true
  | s :: l' => forallb (rowsThenColsb s) l' && visit_orderedb l'
  end.

Lemma rowsThenColsb_spec (a b : Size) : rowsThenColsb a b = true <-> rowsThenCols a b.
Proof.
  unfold rowsThenColsb, rowsThenCols.
  rewrite orb_true_iff, andb_true_iff, Z.ltb_lt, Z.eqb_eq, Z.leb_le. tauto.
Qed.

Lemma visit_orderedb_sound (l : list Size) :
  visit_orderedb l = true -> StronglySorted rowsThenCols l.
Proof.
  induction l as [|s l IH]; simpl; intros H.
  - constructor.
  - apply andb_true_iff in H as [Hs Hl]. constructor; [ now apply IH | ].
    rewrite forallb_forall in Hs. rewrite Forall_forall.
    intros b Hb. now apply rowsThenColsb_spec, Hs.
Qed.

Lemma StronglySorted_filter (A : Type) (R : A -> A -> Prop) (p : A -> bool)
      (l : list A) :
  StronglySorted R l -> StronglySorted R (filter p l).
Proof.
  induction 1 as [|x l Hl IH Hx]; simpl.
  - constructor.
  - destruct (p x); [ | assumption ].
    constructor; [ assumption | ].
    rewrite Forall_forall in *. intros y Hy. apply Hx.
    now apply filter_In in Hy.
Qed.

Lemma autoCandidates_visit_order (detectedCount : Z) :
  StronglySorted rowsThenCols (Candidates.autoCandidates detectedCount).
Proof.
  rewrite autoCandidates_filter. apply StronglySorted_filter.
  apply visit_orderedb_sound. vm_compute. reflexivity.
Qed.

(** With a tie-keeping sort the list is in the order the specification
    describes, for every feature count. *)
Lemma tie_keeping_sort_gives_rows_then_cols (detectedCount : Z) :
  StronglySorted areaThenRowsThenCols
                 (Candidates.autoSizes keeping_std_sort detectedCount).
Proof.
  apply StronglySorted_weaken
    with (R := keeps Candidates.byAreaDesc rowsThenCols).
  - intros a b Ha Hb.
    apply in_autoSizes, in_autoCandidates in Ha, Hb.
    destruct Ha as [[Ha1 Ha2] _], Hb as [[Hb1 Hb2] _].
    unfold keeps, Candidates.byAreaDesc, areaThenRowsThenCols, area, rowsThenCols.
    rewrite gtb_true_iff, gtb_false_iff.
    rewrite !int_mul_exact by now apply board_area_in_range.
    lia.
  - unfold Candidates.autoSizes. simpl.
    apply tie_keeping_sort_keeps;
      [ apply byAreaDesc_swo | apply autoCandidates_visit_order ].
Qed.

(** C4: for every hint (rows = r, cols = c) with r > 0 and c > 0 (both
    ints): when r > 1 and c > 1 the candidates are exactly Size(c, r),
    Size(r, c), Size(c-1, r-1), Size(r-1, c-1) in that order; when r = 1
    or c = 1 they are exactly Size(c, r), Size(r, c). *)
Theorem hinted_candidates (S : StdSort) (A : Type) (features : list A) (r c : Z) :
  0 < r <= Int.INT_MAX -> 0 < c <= Int.INT_MAX ->
  (r > 1 /\ c > 1 ->
   Candidates.sizesToTry S r c features
   = [mkSize c r; mkSize r c; mkSize (c - 1) (r - 1); mkSize (r - 1) (c - 1)])
  /\ (r = 1 \/ c = 1 ->
      Candidates.sizesToTry S r c features = [mkSize c r; mkSize r c]).
Proof.
  intros Hr Hc. unfold Candidates.sizesToTry, Candidates.hintSizes.
  assert (Hmode : (r >? 0) && (c >? 0) = true)
    by (rewrite andb_true_iff, !gtb_true_iff; lia).
  rewrite Hmode. split.
  - intros [Hr1 Hc1].
    assert (Hboth : (c >? 1) && (r >? 1) = true)
      by (rewrite andb_true_iff, !gtb_true_iff; lia).
    rewrite Hboth.
    rewrite !int_sub_exact
      by (unfold Int.in_range, Int.INT_MIN, Int.INT_MAX in *; lia).
    reflexivity.
  - intros Hone.
    assert (Hboth : (c >? 1) && (r >? 1) = false)
      by (rewrite andb_false_iff, !gtb_false_iff; lia).
    now rewrite Hboth.
Qed.

Lemma hinted_candidates_witness :
  Candidates.sizesToTry keeping_std_sort 6 9 (@nil unit)
  = [mkSize 9 6; mkSize 6 9; mkSize 8 5; mkSize 5 8]
  /\ Candidates.sizesToTry keeping_std_sort 1 7 (@nil unit)
     = [mkSize 7 1; mkSize 1 7].
Proof.
  split.
  - apply (hinted_candidates keeping_std_sort (@nil unit) (r := 6) (c := 9));
      unfold Int.INT_MAX; lia.
  - apply (hinted_candidates keeping_std_sort (@nil unit) (r := 1) (c := 7));
      unfold Int.INT_MAX; lia.
Defined.

(** ** Duplicates among the candidates *)

Ltac size_neq :=
  match goal with
  | H : mkSize _ _ = mkSize _ _ |- _ => injection H; lia
  end.

(** C8, as stated, fails for a square hint: rows = cols = 5 gives
    Size(5,5) twice and Size(4,4) twice. *)
Lemma square_hint_duplicates_counterexample :
  Candidates.sizesToTry keeping_std_sort 5 5 (@nil unit)
  = [mkSize 5 5; mkSize 5 5; mkSize 4 4; mkSize 4 4]
  /\ ~ NoDup (Candidates.sizesToTry keeping_std_sort 5 5 (@nil unit)).
Proof.
  split; [ reflexivity | ].
  change (~ NoDup [mkSize 5 5; mkSize 5 5; mkSize 4 4; mkSize 4 4]).
  intros Hnd. inversion Hnd as [|? ? Hnotin _]; subst.
  apply Hnotin. now left.
Qed.

(** C8 (amended): in auto mode the candidate sequence holds no duplicate;
    in hinted mode (rows > 0 and cols > 0) it holds no duplicate exactly
    when rows differs from cols, a square hint repeating each of its
    candidates. *)
Theorem candidates_duplicate_free (S : StdSort) (A : Type) (features : list A)
        (rows cols : Z) :
  Int.in_range rows -> Int.in_range cols ->
  (rows > 0 /\ cols > 0 ->
   (NoDup (Candidates.sizesToTry S rows cols features) <-> rows <> cols))
  /\ (~ (rows > 0 /\ cols > 0) ->
      NoDup (Candidates.sizesToTry S rows cols features)).
Proof.
  intros Hr Hc. unfold Candidates.sizesToTry. split.
  - intros [Hr0 Hc0].
    assert (Hmode : (rows >? 0) && (cols >? 0) = true)
      by (rewrite andb_true_iff, !gtb_true_iff; lia).
    rewrite Hmode. unfold Candidates.hintSizes. split.
    + intros Hnd Heq. subst cols.
      destruct ((rows >? 1) && (rows >? 1));
        inversion Hnd as [|? ? Hnotin _]; subst; apply Hnotin; now left.
    + intros Hneq.
      destruct ((cols >? 1) && (rows >? 1)) eqn:Hboth.
      * apply andb_true_iff in Hboth as [Hc1 Hr1].
        apply gtb_true_iff in Hc1, Hr1.
        rewrite !int_sub_exact
          by (unfold Int.in_range, Int.INT_MIN, Int.INT_MAX in *; lia).
        repeat constructor; simpl; intuition; try size_neq.
      * repeat constructor; simpl; intuition; try size_neq.
  - intros Hauto.
    assert (Hmode : (rows >? 0) && (cols >? 0) = false)
      by (rewrite andb_false_iff, !gtb_false_iff; lia).
    rewrite Hmode. apply NoDup_autoSizes.
Qed.

Lemma candidates_duplicate_free_witness :
  (NoDup (Candidates.sizesToTry keeping_std_sort 6 9 (@nil unit)) <-> 6 <> 9)
  /\ NoDup (Candidates.sizesToTry keeping_std_sort 0 0 (@nil unit)).
Proof.
  assert (H0 : Int.in_range 0) by (unfold Int.in_range, Int.INT_MIN, Int.INT_MAX; lia).
  assert (H6 : Int.in_range 6) by (unfold Int.in_range, Int.INT_MIN, Int.INT_MAX; lia).
  assert (H9 : Int.in_range 9) by (unfold Int.in_range, Int.INT_MIN, Int.INT_MAX; lia).
  split.
  - apply (candidates_duplicate_free keeping_std_sort (@nil unit) H6 H9). lia.
  - apply (candidates_duplicate_free keeping_std_sort (@nil unit) H0 H0). lia.
Defined.

(** ** The search loop *)

Section SearchFacts.
Variable Point2f : Type.
Variable find : Size -> bool * list Point2f.

Definition fails (s : Size) : Prop := fst (find s) = false.

Lemma loop_first_success (pre : list Size) (s : Size) (post : list Size)
      (cs : list Point2f) :
  Forall fails pre -> find s = (true, cs) ->
  forall st,
    Search.loop find (pre ++ s :: post) st
    = Search.mkState true s cs (Search.attempted st ++ pre ++ [s]).
Proof.
  intros Hpre Hs. induction Hpre as [|p pre Hp _ IH]; intros st; simpl.
  - now rewrite Hs.
  - unfold fails in Hp. destruct (find p) as [ok cs'] eqn:Hfp.
    simpl in Hp. subst ok. rewrite IH. simpl. now rewrite <- app_assoc.
Qed.

Lemma loop_all_fail (sizes : list Size) :
  Forall fails sizes ->
  forall st,
    Search.found st = false ->
    Search.found (Search.loop find sizes st) = false
    /\ Search.foundSize (Search.loop find sizes st) = Search.foundSize st
    /\ Search.attempted (Search.loop find sizes st) = Search.attempted st ++ sizes.
Proof.
  intros Hall. induction Hall as [|p sizes Hp _ IH]; intros st Hst; simpl.
  - now rewrite app_nil_r.
  - unfold fails in Hp. destruct (find p) as [ok cs'] eqn:Hfp.
    simpl in Hp. subst ok.
    destruct (IH (Search.mkState false (Search.foundSize st) cs'
                                 (Search.attempted st ++ [p])) eq_refl)
      as (Hf & Hsz & Hatt).
    rewrite Hf, Hsz, Hatt. simpl. now rewrite <- app_assoc.
Qed.

Lemma loop_attempts_extend (sizes : list Size) :
  forall st, exists more,
    Search.attempted (Search.loop find sizes st) = Search.attempted st ++ more.
Proof.
  induction sizes as [|p sizes IH]; intros st; simpl.
  - exists []. now rewrite app_nil_r.
  - destruct (find p) as [[|] cs'].
    + now exists [p].
    + destruct (IH (Search.mkState false (Search.foundSize st) cs'
                                   (Search.attempted st ++ [p])))
        as [more Hmore].
      exists (p :: more). rewrite Hmore. simpl. now rewrite <- app_assoc.
Qed.

Lemma loop_attempts_first (p : Size) (sizes : list Size) (st : Search.State Point2f) :
  exists more,
    Search.attempted (Search.loop find (p :: sizes) st)
    = Search.attempted st ++ p :: more.
Proof.
  simpl. destruct (find p) as [[|] cs'].
  - now exists [].
  - destruct (loop_attempts_extend sizes
                (Search.mkState false (Search.foundSize st) cs'
                                (Search.attempted st ++ [p])))
      as [more Hmore].
    exists more. rewrite Hmore. simpl. now rewrite <- app_assoc.
Qed.

Lemma search_attempts_first (p : Size) (sizes : list Size) :
  exists more, Search.attempted (Search.search find (p :: sizes)) = p :: more.
Proof. apply (loop_attempts_first p sizes (Search.init Point2f)). Qed.
End SearchFacts.

(** C7: for every ordered candidate list and every corner finder, the
    search returns the first candidate on which the finder succeeds with
    the corners found for it, having called the finder on nothing after
    it; if the finder fails on every candidate the search ends not found,
    having called it on all of them. *)
Theorem search_first_success (Point2f : Type)
        (find : Size -> bool * list Point2f) (sizes : list Size) :
  (forall pre s post cs,
      sizes = pre ++ s :: post ->
      Forall (fails find) pre ->
      find s = (true, cs) ->
      Search.search find sizes = Search.mkState true s cs (pre ++ [s]))
  /\ (Forall (fails find) sizes ->
      Search.found (Search.search find sizes) = false
      /\ Search.attempted (Search.search find sizes) = sizes).
Proof.
  split.
  - intros pre s post cs -> Hpre Hs. unfold Search.search.
    now rewrite (@loop_first_success _ find pre s post cs Hpre Hs).
  - intros Hall. unfold Search.search.
    destruct (@loop_all_fail _ find sizes Hall (Search.init Point2f) eq_refl)
      as (Hf & _ & Hatt).
    now split.
Qed.

(** A corner finder for examples: it sees exactly one board, of the given
    size, and reports its corners as grid coordinates. *)
Definition grid (s : Size) : list (Z * Z) :=
  flat_map (fun r => map (fun c => (c, r)) (zseq 0 (Z.to_nat (width s))))
           (zseq 0 (Z.to_nat (height s))).

Definition finds_only (board : Size) (s : Size) : bool * list (Z * Z) :=
  if Size_eqb s board then (true, grid s) else (false, []).

Definition finds_nothing (s : Size) : bool * list (Z * Z) := (false, []).

Lemma search_first_success_witness :
  Search.search (finds_only (mkSize 8 5))
                (Candidates.sizesToTry keeping_std_sort 6 9 (@nil unit))
  = Search.mkState true (mkSize 8 5) (grid (mkSize 8 5))
                   [mkSize 9 6; mkSize 6 9; mkSize 8 5]
  /\ Search.found (Search.search finds_nothing
                     (Candidates.sizesToTry keeping_std_sort 6 9 (@nil unit)))
     = false
  /\ Search.attempted (Search.search finds_nothing
                         (Candidates.sizesToTry keeping_std_sort 6 9 (@nil unit)))
     = [mkSize 9 6; mkSize 6 9; mkSize 8 5; mkSize 5 8].
Proof.
  split.
  - apply (proj1 (search_first_success (finds_only (mkSize 8 5))
                    (Candidates.sizesToTry keeping_std_sort 6 9 (@nil unit)))
                 [mkSize 9 6; mkSize 6 9] (mkSize 8 5) [mkSize 5 8]
                 (grid (mkSize 8 5))).
    + reflexivity.
    + repeat constructor.
    + reflexivity.
  - apply (proj2 (search_first_success finds_nothing
                    (Candidates.sizesToTry keeping_std_sort 6 9 (@nil unit)))).
    repeat constructor.
Defined.

(** What the two front ends make of the state the search ends in. *)
Lemma detect_outputs (Mat Point2f : Type)
      (goodFeaturesToTrack : Mat -> list Point2f)
      (findChessboardCorners : Mat -> Size -> bool * list Point2f)
      (cornerSubPix : Mat -> list Point2f -> list Point2f)
      (S : StdSort) (imgCols imgRows : Z) (gray : Mat) (rows cols : Z) :
  let st := Detect.detect goodFeaturesToTrack findChessboardCorners S gray rows cols in
  (Search.found st = true ->
   Detect.detectCorners goodFeaturesToTrack findChessboardCorners cornerSubPix S
                        gray rows cols
   = Detect.mkDetectObject true (Some (height (Search.foundSize st)))
                           (Some (width (Search.foundSize st)))
                           (Some (cornerSubPix gray (Search.corners st)))
   /\ Detect.detect_main goodFeaturesToTrack findChessboardCorners cornerSubPix S
                         imgCols imgRows gray rows cols
      = Detect.Detected (height (Search.foundSize st)) (width (Search.foundSize st))
                        imgCols imgRows (cornerSubPix gray (Search.corners st)))
  /\ (Search.found st = false ->
      Detect.detectCorners goodFeaturesToTrack findChessboardCorners cornerSubPix S
                           gray rows cols
      = Detect.mkDetectObject false None None None
      /\ Detect.detect_main goodFeaturesToTrack findChessboardCorners cornerSubPix S
                            imgCols imgRows gray rows cols
         = if rows >? 0
           then Detect.NotFoundTried Point2f cols rows (Int.sub cols 1) (Int.sub rows 1)
           else Detect.AutoDetectionFailed Point2f).
Proof.
  intros st. unfold Detect.detectCorners, Detect.detect_main. fold st.
  split; intros ->; split; reflexivity.
Qed.

(** C10: in auto mode (not both of rows, cols positive), for every image
    whose feature count plus 20 fits an int, the candidate list holds
    every size (r, c) with 3 <= r, c <= 20 and r*c <= 20, so it is not
    empty and the search calls the corner finder at least once before it
    can end not found. *)
Theorem auto_candidates_nonempty (S : StdSort) (Point2f : Type)
        (features : list Point2f) (find : Size -> bool * list Point2f)
        (rows cols : Z) :
  ~ (rows > 0 /\ cols > 0) ->
  Z.of_nat (List.length features) <= Int.INT_MAX - 20 ->
  (forall r c, 3 <= r <= 20 -> 3 <= c <= 20 -> r * c <= 20 ->
               In (mkSize c r) (Candidates.sizesToTry S rows cols features))
  /\ Candidates.sizesToTry S rows cols features <> []
  /\ Search.attempted
       (Search.search find (Candidates.sizesToTry S rows cols features)) <> [].
Proof.
  intros Hauto Hcount.
  assert (Hmode : (rows >? 0) && (cols >? 0) = false)
    by (rewrite andb_false_iff, !gtb_false_iff; lia).
  unfold Candidates.sizesToTry. rewrite Hmode.
  rewrite int_of_size_exact by (unfold Int.INT_MAX in *; lia).
  assert (Hd : 0 <= Z.of_nat (List.length features) <= Int.INT_MAX - 20) by lia.
  pose proof (autoSizes_members S Hd) as Hin.
  assert (Hall : forall r c, 3 <= r <= 20 -> 3 <= c <= 20 -> r * c <= 20 ->
                 In (mkSize c r)
                    (Candidates.autoSizes S (Z.of_nat (List.length features)))).
  { intros r c Hr Hc Hrc. apply Hin. lia. }
  split; [ exact Hall | ].
  specialize (Hall 3 3).
  destruct (Candidates.autoSizes S (Z.of_nat (List.length features))) as [|p l].
  - exfalso. apply Hall; lia.
  - split; [ discriminate | ].
    destruct (search_attempts_first find p l) as [more ->]. discriminate.
Qed.

Lemma auto_candidates_nonempty_witness :
  In (mkSize 3 3) (Candidates.sizesToTry keeping_std_sort 0 0 (@nil (Z * Z)))
  /\ Candidates.sizesToTry keeping_std_sort 0 0 (@nil (Z * Z)) <> []
  /\ Search.attempted
       (Search.search finds_nothing
          (Candidates.sizesToTry keeping_std_sort 0 0 (@nil (Z * Z)))) <> [].
Proof.
  assert (Hauto : ~ (0 > 0 /\ 0 > 0)) by lia.
  assert (Hcount : Z.of_nat (List.length (@nil (Z * Z))) <= Int.INT_MAX - 20)
    by (unfold Int.INT_MAX; simpl; lia).
  destruct (auto_candidates_nonempty keeping_std_sort (@nil (Z * Z)) finds_nothing
              Hauto Hcount) as (Hin & Hne & Hatt).
  split; [ apply Hin; lia | split; assumption ].
Defined.

(** ** Loops that fill a vector *)

Section CollectFacts.
Variable A : Type.

Lemma collect_ext (f g : nat -> Exec A) :
  (forall k, f k = g k) -> forall n i, collect f i n = collect g i n.
Proof.
  intros Hfg. induction n as [|n IH]; intros i; simpl.
  - reflexivity.
  - now rewrite Hfg, IH.
Qed.

Lemma collect_shift (f : nat -> Exec A) :
  forall n i, collect f (S i) n = collect (fun j => f (S j)) i n.
Proof.
  induction n as [|n IH]; intros i; simpl.
  - reflexivity.
  - now rewrite IH.
Qed.

(** The loop ends normally exactly when every pass does, and then the
    vector holds the passes' values in index order. *)
Lemma collect_ret_iff (f : nat -> Exec A) :
  forall n i l,
    collect f i n = Ret l <-> Forall2 (fun k a => f k = Ret a) (seq i n) l.
Proof.
  induction n as [|n IH]; intros i l; simpl.
  - split.
    + intros [= <-]. constructor.
    + intros H. inversion H. reflexivity.
  - split.
    + destruct (f i) as [a| |] eqn:Hfi; simpl; try discriminate.
      destruct (collect f (S i) n) as [rest| |] eqn:Hrest; simpl; try discriminate.
      intros [= <-]. constructor; [ assumption | now apply IH ].
    + intros H. inversion H as [|? a ? rest Hfi Hrest]; subst.
      rewrite Hfi. simpl. apply IH in Hrest. now rewrite Hrest.
Qed.

Lemma collect_length (f : nat -> Exec A) (n i : nat) (l : list A) :
  collect f i n = Ret l -> List.length l = n.
Proof.
  intros H. apply collect_ret_iff in H. apply Forall2_length in H.
  now rewrite length_seq in H.
Qed.

Lemma collect_nth_error_from (f : nat -> Exec A) :
  forall n i l,
    collect f i n = Ret l ->
    forall k, (k < n)%nat ->
              exists a, nth_error l k = Some a /\ f (i + k)%nat = Ret a.
Proof.
  induction n as [|n IH]; intros i l H k Hk; [ lia | ].
  simpl in H.
  destruct (f i) as [a| |] eqn:Hfi; simpl in H; try discriminate.
  destruct (collect f (S i) n) as [rest| |] eqn:Hrest; simpl in H; try discriminate.
  injection H as <-.
  destruct k as [|k].
  - exists a. rewrite Nat.add_0_r. now split.
  - destruct (IH (S i) rest Hrest k) as (b & Hb & Hfb); [ lia | ].
    exists b. rewrite Nat.add_succ_r. now split.
Qed.

Lemma collect_nth_error (f : nat -> Exec A) (n : nat) (l : list A) :
  collect f 0 n = Ret l ->
  forall i, (i < n)%nat -> exists a, nth_error l i = Some a /\ f i = Ret a.
Proof. intros H i Hi. now apply (@collect_nth_error_from f n 0%nat l H). Qed.

(** A loop over the elements of an array built from [l] by [enc], each
    element converted by [f]. *)
Lemma collect_over_elements (B C : Type) (enc : C -> B) (f : B -> Exec A)
      (g : C -> A) (d : B) :
  forall l : list C,
    (forall c, In c l -> f (enc c) = Ret (g c)) ->
    collect (fun j => f (nth j (map enc l) d)) 0 (List.length l) = Ret (map g l).
Proof.
  induction l as [|c l IH]; intros Hf; simpl.
  - reflexivity.
  - rewrite (Hf c) by now left. simpl.
    rewrite collect_shift. simpl.
    rewrite IH by (intros c' Hc'; apply Hf; now right).
    reflexivity.
Qed.
End CollectFacts.

(** ** Object-point reconciliation *)

(** Well-shaped arguments of the embedded front end: a point object has
    [x], [y] and possibly [z]; a point list is an array of them; a
    per-view collection is an array of point lists. *)
Definition JsPoint : Type := Calib.double * Calib.double * option Calib.double.

Definition js_point (p : JsPoint) : Js.val :=
  let '(x, y, oz) := p in
  Js.object (("x"%string, Js.number x) :: ("y"%string, Js.number y)
             :: match oz with
                | Some z => [("z"%string, Js.number z)]
                | None => []
                end).

Definition js_points (pts : list JsPoint) : Js.val := Js.array (map js_point pts).

Definition js_views (views : list (list JsPoint)) : Js.val :=
  Js.array (map js_points views).

Definition to_Point2f (fround : Calib.double -> Calib.double) (p : JsPoint)
  : Calib.Point2f :=
  let '(x, y, _) := p in Calib.mkPoint2f (fround x) (fround y).

Definition to_Point3f (fround : Calib.double -> Calib.double) (p : JsPoint)
  : Calib.Point3f :=
  let '(x, y, oz) := p in
  Calib.mkPoint3f (fround x) (fround y)
                  match oz with
                  | Some z => fround z
                  | None => PrimFloat.zero
                  end.

Section ReconcileFacts.
Variable fround : Calib.double -> Calib.double.

Lemma parseObjectPoint_js_point (p : JsPoint) :
  Calib.parseObjectPoint fround (js_point p) = Ret (to_Point3f fround p).
Proof. destruct p as [[x y] [z|]]; reflexivity. Qed.

Lemma parseObjectList_js_points (pts : list JsPoint) :
  Calib.parseObjectList fround (js_points pts) = Ret (map (to_Point3f fround) pts).
Proof.
  unfold Calib.parseObjectList, js_points. simpl. rewrite length_map.
  apply collect_over_elements. intros p _. apply parseObjectPoint_js_point.
Qed.

Lemma parseImageView_js_points (pts : list JsPoint) :
  Calib.parseImageView fround (js_points pts) = Ret (map (to_Point2f fround) pts).
Proof.
  unfold Calib.parseImageView, js_points. simpl. rewrite length_map.
  apply (collect_over_elements js_point
           (fun pt => (x <- Calib.js_float fround (Js.get pt "x") ;;
                       y <- Calib.js_float fround (Js.get pt "y") ;;
                       Ret (Calib.mkPoint2f x y))%exec)).
  intros [[x y] [z|]] _; reflexivity.
Qed.
End ReconcileFacts.

(** C2: the reconciler looks at the outer length only.  For every N and
    every supplied collection: when the outer length is N, view i gets
    the points parsed from inner list i; otherwise the collection is
    parsed as one list of points and every one of the N views gets that
    same list.  On well-shaped arguments both cases produce their
    result. *)
Theorem object_points_shared_or_per_view
        (fround : Calib.double -> Calib.double) (N : nat) :
  (forall views : list (list JsPoint),
      List.length views = N ->
      Calib.reconcileObjectPoints fround (js_views views) N
      = Ret (map (map (to_Point3f fround)) views))
  /\ (forall shared : list JsPoint,
         List.length shared <> N ->
         Calib.reconcileObjectPoints fround (js_points shared) N
         = Ret (repeat (map (to_Point3f fround) shared) N))
  /\ (forall (objPointsJS : Js.val) (objLen : nat)
             (objectPoints : list (list Calib.Point3f)),
         Js.length_as_int objPointsJS = Some objLen ->
         Calib.reconcileObjectPoints fround objPointsJS N = Ret objectPoints ->
         (objLen = N ->
          List.length objectPoints = N
          /\ forall i, (i < N)%nat ->
                       exists pts,
                         nth_error objectPoints i = Some pts
                         /\ Calib.parseObjectList fround (Js.at_ objPointsJS i) = Ret pts)
         /\ (objLen <> N ->
             exists pts,
               Calib.parseObjectList fround objPointsJS = Ret pts
               /\ objectPoints = repeat pts N)).
Proof.
  split; [ | split ].
  - intros views <-. unfold Calib.reconcileObjectPoints, js_views. simpl.
    rewrite length_map, Nat.eqb_refl. simpl.
    apply collect_over_elements. intros pts _. apply parseObjectList_js_points.
  - intros shared Hlen. unfold Calib.reconcileObjectPoints.
    change (Js.length_as_int (js_points shared))
      with (Some (List.length (map js_point shared))).
    simpl defined. simpl bind. rewrite length_map.
    apply Nat.eqb_neq in Hlen. rewrite Hlen. simpl negb. cbv iota.
    now rewrite parseObjectList_js_points.
  - intros objPointsJS objLen objectPoints Hlen Hrec.
    unfold Calib.reconcileObjectPoints in Hrec. rewrite Hlen in Hrec.
    simpl in Hrec. split.
    + intros ->. rewrite Nat.eqb_refl in Hrec. simpl in Hrec. split.
      * now apply collect_length in Hrec.
      * intros i Hi. now apply (collect_nth_error _ Hrec).
    + intros Hneq. apply Nat.eqb_neq in Hneq. rewrite Hneq in Hrec. simpl in Hrec.
      destruct (Calib.parseObjectList fround objPointsJS) as [pts| |];
        simpl in Hrec; try discriminate.
      exists pts. split; [ reflexivity | now injection Hrec ].
Qed.

(** ** Collaborators and inputs for examples *)

Module Sample.
Import Calib.

(** Small whole numbers; binary32 holds them exactly, so rounding
    leaves them as they are. *)
Definition num (z : Z) : double := PrimFloat.of_uint63 (Uint63.of_Z z).
Definition fround (x : double) : double := x.

Definition counts_match (objectPoints : list (list Point3f))
           (imagePoints : list (list Point2f)) : bool :=
  forallb (fun v => Nat.eqb (List.length (fst v)) (List.length (snd v)))
          (combine objectPoints imagePoints).

Definition poses (n : nat) : SolverOutput unit :=
  mkSolverOutput PrimFloat.zero tt tt (repeat tt n) (repeat tt n).

(** A solver that insists on equal counts in every view. *)
Definition strict_solver (objectPoints : list (list Point3f))
           (imagePoints : list (list Point2f)) (imageSize : Size)
  : CvResult (SolverOutput unit) :=
  if counts_match objectPoints imagePoints
  then Ok (poses (List.length objectPoints))
  else Raise "object and image point counts differ".

(** A projector that drops z, and one that always throws. *)
Definition flat_project (pts : list Point3f) (rv tv K D : unit)
  : CvResult (list Point2f) :=
  Ok (map (fun p => mkPoint2f (x3 p) (y3 p)) pts).

Definition failing_project (pts : list Point3f) (rv tv K D : unit)
  : CvResult (list Point2f) :=
  Raise "projection failed".

Definition sq (d : double) : double := PrimFloat.mul d d.

Definition fmax (x y : double) : double :=
  if PrimFloat.ltb x y then y else x.

(** The measure each norm type accumulates over the coordinate
    differences, and what is done with the total. *)
Definition accumulate (normType : NormType) (acc dx dy : double) : double :=
  match normType with
  | NORM_INF => fmax acc (fmax (PrimFloat.abs dx) (PrimFloat.abs dy))
  | NORM_L1 => PrimFloat.add acc (PrimFloat.add (PrimFloat.abs dx) (PrimFloat.abs dy))
  | _ => PrimFloat.add acc (PrimFloat.add (sq dx) (sq dy))
  end.

Definition norm (a b : list Point2f) (normType : NormType) : CvResult double :=
  if Nat.eqb (List.length a) (List.length b)
  then
    match normType with
    | NORM_HAMMING | NORM_HAMMING2 => Raise "norm type not defined for floats"
    | _ =>
        let total :=
          fold_left
            (fun acc pq =>
               accumulate normType acc
                 (PrimFloat.sub (x2 (fst pq)) (x2 (snd pq)))
                 (PrimFloat.sub (y2 (fst pq)) (y2 (snd pq))))
            (combine a b) PrimFloat.zero in
        Ok (match normType with
            | NORM_L2 => PrimFloat.sqrt total
            | _ => total
            end)
    end
  else Raise "point sets differ in size".

(** An input stream over numeric tokens, with its fail bit. *)
Definition Tokens : Type := list Z * bool.

Definition next (s : Tokens) : Z * Tokens :=
  match s with
  | (_, true) => (0, s)
  | ([], false) => (0, ([], true))
  | (t :: rest, false) => (t, (rest, false))
  end.

Definition extract_int (s : Tokens) : Z * Tokens := next s.
Definition extract_float (s : Tokens) : double * Tokens :=
  let (t, s') := next s in (num t, s').
Definition fail (s : Tokens) : bool := snd s.

(** One view, two detected corners, one board point. *)
Definition two_corners : Js.val :=
  js_views [[(num 0, num 0, None); (num 1, num 0, None)]].
Definition one_board_point : Js.val :=
  js_views [[(num 0, num 0, None)]].

(** One view, two detected corners displaced by (2, 0) from the two
    board points. *)
Definition shifted_corners : Js.val :=
  js_views [[(num 2, num 0, None); (num 3, num 0, None)]].
Definition two_board_points : Js.val :=
  js_views [[(num 0, num 0, None); (num 1, num 0, Some (num 0))]].

(** The same session as a data file: 640 480, 1 view, 2 points. *)
Definition data_file : Tokens :=
  ([640; 480; 1; 2; 2; 0; 3; 0; 0; 0; 0; 1; 0; 0], false).
End Sample.

(** ** Calibration front ends *)

(** Some view has an object-point count other than its image-point
    count. *)
Definition countMismatch (objectPoints : list (list Calib.Point3f))
           (imagePoints : list (list Calib.Point2f)) : Prop :=
  exists i o ip,
    nth_error objectPoints i = Some o
    /\ nth_error imagePoints i = Some ip
    /\ List.length o <> List.length ip.

(** C1, as stated, fails: one view with two image points and one object
    point passes reconciliation with the counts differing, and what comes
    back is the error object built from the solver's exception, not a
    point-count error. *)
Lemma point_count_mismatch_counterexample :
  (exists imagePoints objectPoints,
      Calib.parseSession Sample.fround Sample.two_corners Sample.one_board_point
      = Ret (imagePoints, objectPoints)
      /\ countMismatch objectPoints imagePoints)
  /\ Calib.calibrateCamera Sample.strict_solver Sample.flat_project Sample.norm
       Sample.fround Sample.two_corners Sample.one_board_point 640 480
     = Calib.WError unit "object and image point counts differ"
  /\ Calib.wasm_error_kind
       (Calib.calibrateCamera Sample.strict_solver Sample.flat_project
          Sample.norm Sample.fround Sample.two_corners Sample.one_board_point
          640 480)
     <> Some Calib.PointCountMismatch.
Proof.
  split; [ | split ].
  - eexists. eexists. split; [ vm_compute; reflexivity | ].
    exists 0%nat. eexists. eexists.
    split; [ reflexivity | split; [ reflexivity | ] ].
    simpl. discriminate.
  - vm_compute. reflexivity.
  - vm_compute. discriminate.
Qed.

Section FrontEndFacts.
Variable Mat : Type.
Variable solver :
  list (list Calib.Point3f) -> list (list Calib.Point2f) -> Size
  -> CvResult (Calib.SolverOutput Mat).
Variable project :
  list Calib.Point3f -> Mat -> Mat -> Mat -> Mat -> CvResult (list Calib.Point2f).
Variable norm : Calib.Norm.
Variable fround : Calib.double -> Calib.double.
Variable IStream : Type.
Variable extract_int : IStream -> Z * IStream.
Variable extract_float : IStream -> Calib.double * IStream.
Variable fail : IStream -> bool.

Lemma wasm_never_point_count_mismatch (imgs objs : Js.val) (w h : Z) :
  Calib.wasm_error_kind (Calib.calibrateCamera solver project norm fround imgs objs w h)
  <> Some Calib.PointCountMismatch.
Proof.
  destruct (Calib.calibrateCamera solver project norm fround imgs objs w h); simpl; discriminate.
Qed.

Lemma cli_never_point_count_mismatch (infile : option IStream) :
  Calib.cli_error_kind (Calib.calibrate_main solver project norm extract_int extract_float fail
                              infile) <> Some Calib.PointCountMismatch.
Proof.
  destruct (Calib.calibrate_main solver project norm extract_int extract_float fail
                              infile) as [code [msg|msg|r]| |]; simpl;
    try discriminate.
  destruct (String.prefix _ msg); [ discriminate | ].
  destruct (String.prefix _ msg); discriminate.
Qed.

(** The embedded front end after parsing: nothing stands between the
    reconciled session and the solver. *)
Lemma calibrateCamera_after_parsing (imgs objs : Js.val) (w h : Z)
      (imagePoints : list (list Calib.Point2f))
      (objectPoints : list (list Calib.Point3f)) :
  Calib.parseSession fround imgs objs = Ret (imagePoints, objectPoints) ->
  Calib.calibrateCamera solver project norm fround imgs objs w h
  = match solver objectPoints imagePoints (mkSize w h) with
    | Raise what => Calib.WError Mat what
    | Ok out =>
        match Calib.reprojectionErrors project norm objectPoints imagePoints out with
        | Ret perViewErrors => Calib.WResult (Calib.resultOf out perViewErrors)
        | Thrown what => Calib.WEscaped Mat what
        | Undefined => Calib.WUndefined Mat
        end
    end.
Proof. intros Hparse. unfold Calib.calibrateCamera. now rewrite Hparse. Qed.
End FrontEndFacts.

(** C1 (amended): no PointCountMismatch error is raised by either front
    end, whether or not some view's object-point count differs from its
    image-point count.  The embedded front end hands the reconciled
    session to the solver as it is: if the solver throws, the error object
    carries the solver's message; if it returns, calibration goes on to
    the re-projection loop. *)
Theorem no_point_count_check (Mat : Type)
        (solver : list (list Calib.Point3f) -> list (list Calib.Point2f) -> Size
                  -> CvResult (Calib.SolverOutput Mat))
        (project : list Calib.Point3f -> Mat -> Mat -> Mat -> Mat
                   -> CvResult (list Calib.Point2f))
        (norm : Calib.Norm)
        (fround : Calib.double -> Calib.double)
        (IStream : Type)
        (extract_int : IStream -> Z * IStream)
        (extract_float : IStream -> Calib.double * IStream)
        (fail : IStream -> bool)
        (imgs objs : Js.val) (w h : Z) (infile : option IStream)
        (imagePoints : list (list Calib.Point2f))
        (objectPoints : list (list Calib.Point3f)) :
  Calib.parseSession fround imgs objs = Ret (imagePoints, objectPoints) ->
  Calib.wasm_error_kind (Calib.calibrateCamera solver project norm fround imgs objs w h)
  <> Some Calib.PointCountMismatch
  /\ Calib.cli_error_kind
       (Calib.calibrate_main solver project norm extract_int extract_float fail infile)
     <> Some Calib.PointCountMismatch
  /\ (forall what,
         solver objectPoints imagePoints (mkSize w h) = Raise what ->
         Calib.calibrateCamera solver project norm fround imgs objs w h
         = Calib.WError Mat what)
  /\ (forall out,
         solver objectPoints imagePoints (mkSize w h) = Ok out ->
         Calib.calibrateCamera solver project norm fround imgs objs w h
         = match Calib.reprojectionErrors project norm objectPoints imagePoints out with
           | Ret perViewErrors => Calib.WResult (Calib.resultOf out perViewErrors)
           | Thrown what => Calib.WEscaped Mat what
           | Undefined => Calib.WUndefined Mat
           end).
Proof.
  intros Hparse. split; [ | split; [ | split ] ].
  - apply wasm_never_point_count_mismatch.
  - apply cli_never_point_count_mismatch.
  - intros what Hs.
    rewrite (@calibrateCamera_after_parsing _ solver project norm fround
               imgs objs w h _ _ Hparse).
    now rewrite Hs.
  - intros out Hs.
    rewrite (@calibrateCamera_after_parsing _ solver project norm fround
               imgs objs w h _ _ Hparse).
    now rewrite Hs.
Qed.

Definition two_corner_points : list (list Calib.Point2f) :=
  [[Calib.mkPoint2f (Sample.num 0) (Sample.num 0);
    Calib.mkPoint2f (Sample.num 1) (Sample.num 0)]].

Definition one_object_point : list (list Calib.Point3f) :=
  [[Calib.mkPoint3f (Sample.num 0) (Sample.num 0) PrimFloat.zero]].

Lemma no_point_count_check_witness :
  Calib.parseSession Sample.fround Sample.two_corners Sample.one_board_point
  = Ret (two_corner_points, one_object_point)
  /\ Calib.calibrateCamera Sample.strict_solver Sample.flat_project Sample.norm
       Sample.fround Sample.two_corners Sample.one_board_point 640 480
     = Calib.WError unit "object and image point counts differ".
Proof.
  assert (Hparse :
            Calib.parseSession Sample.fround Sample.two_corners Sample.one_board_point
            = Ret (two_corner_points, one_object_point))
    by (vm_compute; reflexivity).
  split; [ exact Hparse | ].
  destruct (@no_point_count_check unit Sample.strict_solver Sample.flat_project
              Sample.norm Sample.fround Sample.Tokens Sample.extract_int
              Sample.extract_float Sample.fail
              Sample.two_corners Sample.one_board_point 640 480
              (Some Sample.data_file) two_corner_points one_object_point Hparse)
    as (_ & _ & Hraise & _).
  apply Hraise. vm_compute. reflexivity.
Defined.

(** ** Re-projection failures *)

Section ReprojectionFailure.
Variable Mat : Type.
Variable solver :
  list (list Calib.Point3f) -> list (list Calib.Point2f) -> Size
  -> CvResult (Calib.SolverOutput Mat).
Variable project :
  list Calib.Point3f -> Mat -> Mat -> Mat -> Mat -> CvResult (list Calib.Point2f).
Variable norm : Calib.Norm.
Variable fround : Calib.double -> Calib.double.
Variable IStream : Type.
Variable extract_int : IStream -> Z * IStream.
Variable extract_float : IStream -> Calib.double * IStream.
Variable fail : IStream -> bool.

Variable imagePoints : list (list Calib.Point2f).
Variable objectPoints : list (list Calib.Point3f).
Variable out : Calib.SolverOutput Mat.
Variable what : string.
Hypothesis loop_throws :
  Calib.reprojectionErrors project norm objectPoints imagePoints out = Thrown what.

(** The file front end catches the exception and prints a failure of
    its own kind. *)
Lemma cli_reports_reprojection_error (s : IStream) (imageSize : Size) :
  Calib.parseDataFile extract_int extract_float fail s
  = Calib.Session imageSize imagePoints objectPoints ->
  solver objectPoints imagePoints imageSize = Ok out ->
  Calib.calibrate_main solver project norm extract_int extract_float fail (Some s)
  = Calib.Exit 0 (Calib.PFailure Mat ("OpenCV Reprojection Error: " ++ what))
  /\ Calib.cli_error_kind
       (Calib.calibrate_main solver project norm extract_int extract_float fail
                             (Some s))
     = Some Calib.ReprojectionError.
Proof.
  intros Hparse Hsolve.
  assert (Hmain :
            Calib.calibrate_main solver project norm extract_int extract_float
                                 fail (Some s)
            = Calib.Exit 0 (Calib.PFailure Mat ("OpenCV Reprojection Error: " ++ what))).
  { unfold Calib.calibrate_main. now rewrite Hparse, Hsolve, loop_throws. }
  split; [ exact Hmain | ]. rewrite Hmain. simpl. now destruct what.
Qed.

(** The embedded front end has no handler there: the exception leaves
    the exported function. *)
Lemma wasm_lets_reprojection_exception_escape (imgs objs : Js.val) (w h : Z) :
  Calib.parseSession fround imgs objs = Ret (imagePoints, objectPoints) ->
  solver objectPoints imagePoints (mkSize w h) = Ok out ->
  Calib.calibrateCamera solver project norm fround imgs objs w h
  = Calib.WEscaped Mat what.
Proof.
  intros Hparse Hsolve. unfold Calib.calibrateCamera.
  now rewrite Hparse, Hsolve, loop_throws.
Qed.
End ReprojectionFailure.

(** C5 fails on the embedded front end: with the solver returning and
    [projectPoints] throwing on view 0, [calibrateCamera] of
    [wasm_interface.cpp] returns no error value, the exception escapes;
    on the same session the file front end prints its re-projection
    failure. *)
Lemma wasm_reprojection_exception_escapes :
  Calib.calibrateCamera Sample.strict_solver Sample.failing_project Sample.norm
    Sample.fround Sample.shifted_corners Sample.two_board_points 640 480
  = Calib.WEscaped unit "projection failed"
  /\ Calib.wasm_error_kind
       (Calib.calibrateCamera Sample.strict_solver Sample.failing_project
          Sample.norm Sample.fround Sample.shifted_corners
          Sample.two_board_points 640 480)
     = None
  /\ Calib.calibrate_main Sample.strict_solver Sample.failing_project Sample.norm
       Sample.extract_int Sample.extract_float Sample.fail (Some Sample.data_file)
     = Calib.Exit 0
         (Calib.PFailure unit "OpenCV Reprojection Error: projection failed")
  /\ Calib.cli_error_kind
       (Calib.calibrate_main Sample.strict_solver Sample.failing_project
          Sample.norm Sample.extract_int Sample.extract_float Sample.fail
          (Some Sample.data_file))
     = Some Calib.ReprojectionError.
Proof. repeat split; vm_compute; reflexivity. Qed.

(** ** Reported errors *)

Section ReportedErrors.
Variable Mat : Type.
Variable project :
  list Calib.Point3f -> Mat -> Mat -> Mat -> Mat -> CvResult (list Calib.Point2f).
Variable norm : Calib.Norm.

(** [e] is sqrt(err^2 / count) for view [i], where err is what
    [cv::norm] returns when asked for the L2 norm ([NORM_L2]) between the
    view's detected points and the re-projection of its object points
    through the solved pose, and count is the number of detected points,
    converted to a double.  The formula is written with the float
    primitives themselves. *)
Definition perViewErrorOf (objectPoints : list (list Calib.Point3f))
           (imagePoints : list (list Calib.Point2f))
           (out : Calib.SolverOutput Mat) (i : nat) (e : Calib.double) : Prop :=
  exists o rv tv ip imagePoints2 err,
    nth_error objectPoints i = Some o
    /\ nth_error (Calib.rvecs out) i = Some rv
    /\ nth_error (Calib.tvecs out) i = Some tv
    /\ nth_error imagePoints i = Some ip
    /\ project o rv tv (Calib.cameraMatrix out) (Calib.distCoeffs out)
       = Ok imagePoints2
    /\ norm ip imagePoints2 Calib.NORM_L2 = Ok err
    /\ e = PrimFloat.sqrt
             (PrimFloat.div
                (PrimFloat.mul err err)
                (PrimFloat.of_uint63 (Uint63.of_Z (Z.of_nat (List.length ip))))).

(** The report carries the solver's RMS and one such error per view. *)
Definition reports (objectPoints : list (list Calib.Point3f))
           (imagePoints : list (list Calib.Point2f))
           (out : Calib.SolverOutput Mat) (r : Calib.CalibrationResult Mat) : Prop :=
  Calib.r_rms r = Calib.rms out
  /\ List.length (Calib.r_perViewErrors r) = List.length objectPoints
  /\ forall i, (i < List.length objectPoints)%nat ->
               exists e, nth_error (Calib.r_perViewErrors r) i = Some e
                         /\ perViewErrorOf objectPoints imagePoints out i e.

Lemma viewError_ret (objectPoints : list (list Calib.Point3f))
      (imagePoints : list (list Calib.Point2f))
      (out : Calib.SolverOutput Mat) (i : nat) (e : Calib.double) :
  Calib.viewError project norm objectPoints imagePoints out i = Ret e
  <-> perViewErrorOf objectPoints imagePoints out i e.
Proof.
  unfold Calib.viewError, perViewErrorOf, vec_at, Calib.rmsOfNorm. split.
  - destruct (nth_error objectPoints i) as [o|]; simpl; try discriminate.
    destruct (nth_error (Calib.rvecs out) i) as [rv|]; simpl; try discriminate.
    destruct (nth_error (Calib.tvecs out) i) as [tv|]; simpl; try discriminate.
    destruct (project o rv tv _ _) as [ip2|w] eqn:Hp; simpl; try discriminate.
    destruct (nth_error imagePoints i) as [ip|]; simpl; try discriminate.
    destruct (norm ip ip2 Calib.NORM_L2) as [err|w] eqn:Hn; simpl; try discriminate.
    intros [= <-]. exists o, rv, tv, ip, ip2, err. repeat split; assumption.
  - intros (o & rv & tv & ip & ip2 & err & -> & -> & -> & Hip & Hp & Hn & ->).
    simpl. rewrite Hp. simpl. rewrite Hip. simpl. rewrite Hn. reflexivity.
Qed.

Lemma reprojectionErrors_ret (objectPoints : list (list Calib.Point3f))
      (imagePoints : list (list Calib.Point2f))
      (out : Calib.SolverOutput Mat) (errs : list Calib.double) :
  Calib.reprojectionErrors project norm objectPoints imagePoints out = Ret errs ->
  reports objectPoints imagePoints out (Calib.resultOf out errs).
Proof.
  unfold Calib.reprojectionErrors, reports. intros Hloop. simpl.
  split; [ reflexivity | split ].
  - now apply collect_length in Hloop.
  - intros i Hi. destruct (collect_nth_error _ Hloop Hi) as (e & He & Hv).
    exists e. split; [ assumption | now apply viewError_ret ].
Qed.

(** The loop does end normally when every view's calls return. *)
Lemma reprojectionErrors_returns (objectPoints : list (list Calib.Point3f))
      (imagePoints : list (list Calib.Point2f))
      (out : Calib.SolverOutput Mat) (errs : list Calib.double) :
  Forall2 (perViewErrorOf objectPoints imagePoints out)
          (seq 0 (List.length objectPoints)) errs ->
  Calib.reprojectionErrors project norm objectPoints imagePoints out = Ret errs.
Proof.
  intros Hall. unfold Calib.reprojectionErrors. apply collect_ret_iff.
  eapply Forall2_impl; [ | exact Hall ].
  intros i e He. now apply viewError_ret.
Qed.
End ReportedErrors.

(** C6: whenever either front end reports a result, its rms is the value
    the solver returned, and for every view i its perViewErrors[i] is
    sqrt(err^2 / count_i), err being what [cv::norm] returns for
    [NORM_L2], the L2 norm, between the detected image points of view i
    and the re-projection of its object points, and count_i the number of
    detected points of the view as a double. *)
Theorem reported_errors (Mat : Type)
        (solver : list (list Calib.Point3f) -> list (list Calib.Point2f) -> Size
                  -> CvResult (Calib.SolverOutput Mat))
        (project : list Calib.Point3f -> Mat -> Mat -> Mat -> Mat
                   -> CvResult (list Calib.Point2f))
        (norm : Calib.Norm)
        (fround : Calib.double -> Calib.double)
        (IStream : Type)
        (extract_int : IStream -> Z * IStream)
        (extract_float : IStream -> Calib.double * IStream)
        (fail : IStream -> bool) :
  (forall (imgs objs : Js.val) (w h : Z) (r : Calib.CalibrationResult Mat),
      Calib.calibrateCamera solver project norm fround imgs objs w h
      = Calib.WResult r ->
      exists imagePoints objectPoints out,
        Calib.parseSession fround imgs objs = Ret (imagePoints, objectPoints)
        /\ solver objectPoints imagePoints (mkSize w h) = Ok out
        /\ reports project norm objectPoints imagePoints out r)
  /\ (forall (infile : option IStream) (code : Z) (r : Calib.CalibrationResult Mat),
         Calib.calibrate_main solver project norm extract_int extract_float fail infile
         = Calib.Exit code (Calib.PResult r) ->
         exists s imageSize imagePoints objectPoints out,
           infile = Some s
           /\ Calib.parseDataFile extract_int extract_float fail s
              = Calib.Session imageSize imagePoints objectPoints
           /\ solver objectPoints imagePoints imageSize = Ok out
           /\ reports project norm objectPoints imagePoints out r).
Proof.
  split.
  - intros imgs objs w h r. unfold Calib.calibrateCamera.
    destruct (Calib.parseSession fround imgs objs)
      as [[imagePoints objectPoints]| |] eqn:Hparse; try discriminate.
    destruct (solver objectPoints imagePoints (mkSize w h)) as [out|what] eqn:Hs;
      try discriminate.
    destruct (Calib.reprojectionErrors project norm objectPoints imagePoints out)
      as [errs| |] eqn:Hloop; try discriminate.
    intros [= <-]. exists imagePoints, objectPoints, out.
    split; [ reflexivity | split; [ assumption | ] ].
    now apply reprojectionErrors_ret.
  - intros infile code r. unfold Calib.calibrate_main.
    destruct infile as [s|]; try discriminate.
    destruct (Calib.parseDataFile extract_int extract_float fail s)
      as [ | | imageSize imagePoints objectPoints] eqn:Hparse; try discriminate.
    destruct (solver objectPoints imagePoints imageSize) as [out|what] eqn:Hs;
      try discriminate.
    destruct (Calib.reprojectionErrors project norm objectPoints imagePoints out)
      as [errs| |] eqn:Hloop; try discriminate.
    intros [= <- <-]. exists s, imageSize, imagePoints, objectPoints, out.
    split; [ reflexivity | split; [ assumption | split; [ assumption | ] ] ].
    now apply reprojectionErrors_ret.
Qed.

Definition sample_report : Calib.CalibrationResult unit :=
  Calib.mkCalibrationResult PrimFloat.zero tt tt [tt] [tt] [Sample.num 2].

Lemma reported_errors_witness :
  (exists imagePoints objectPoints out,
      Calib.parseSession Sample.fround Sample.shifted_corners Sample.two_board_points
      = Ret (imagePoints, objectPoints)
      /\ Sample.strict_solver objectPoints imagePoints (mkSize 640 480) = Ok out
      /\ reports Sample.flat_project Sample.norm objectPoints imagePoints out
                 sample_report)
  /\ (exists s imageSize imagePoints objectPoints out,
         Some Sample.data_file = Some s
         /\ Calib.parseDataFile Sample.extract_int Sample.extract_float Sample.fail s
            = Calib.Session imageSize imagePoints objectPoints
         /\ Sample.strict_solver objectPoints imagePoints imageSize = Ok out
         /\ reports Sample.flat_project Sample.norm objectPoints imagePoints out
                    sample_report).
Proof.
  split.
  - apply (proj1 (reported_errors Sample.strict_solver Sample.flat_project
                    Sample.norm Sample.fround Sample.extract_int
                    Sample.extract_float Sample.fail)
                 Sample.shifted_corners Sample.two_board_points 640 480).
    vm_compute. reflexivity.
  - apply (proj2 (reported_errors Sample.strict_solver Sample.flat_project
                    Sample.norm Sample.fround Sample.extract_int
                    Sample.extract_float Sample.fail)
                 (Some Sample.data_file) 0).
    vm_compute. reflexivity.
Defined.

(** ** The data file *)

Section DataFile.
Variable IStream : Type.
Variable extract_int : IStream -> Z * IStream.
Variable extract_float : IStream -> Calib.double * IStream.
Variable fail : IStream -> bool.

Lemma readImagePoints_length (M : nat) :
  forall s, List.length (fst (Calib.readImagePoints extract_float M s)) = M.
Proof.
  induction M as [|M IH]; intros s; simpl.
  - reflexivity.
  - destruct (extract_float s) as [x s1]. destruct (extract_float s1) as [y s2].
    specialize (IH s2).
    destruct (Calib.readImagePoints extract_float M s2) as [rest s3].
    simpl in *. now rewrite IH.
Qed.

Lemma readObjectPoints_length (M : nat) :
  forall s, List.length (fst (Calib.readObjectPoints extract_float M s)) = M.
Proof.
  induction M as [|M IH]; intros s; simpl.
  - reflexivity.
  - destruct (extract_float s) as [x s1]. destruct (extract_float s1) as [y s2].
    destruct (extract_float s2) as [z s3].
    specialize (IH s3).
    destruct (Calib.readObjectPoints extract_float M s3) as [rest s4].
    simpl in *. now rewrite IH.
Qed.

Lemma readViews_counts (n : nat) :
  forall s imagePoints objectPoints,
    Calib.readViews extract_int extract_float n s = Some (imagePoints, objectPoints) ->
    List.length imagePoints = n
    /\ Forall2 (fun o ip => List.length o = List.length ip) objectPoints imagePoints.
Proof.
  induction n as [|n IH]; intros s imagePoints objectPoints; simpl.
  - intros [= <- <-]. split; [ reflexivity | constructor ].
  - destruct (extract_int s) as [M s1].
    destruct (M <? 0); [ discriminate | ].
    pose proof (readImagePoints_length (Z.to_nat M) s1) as Himg.
    destruct (Calib.readImagePoints extract_float (Z.to_nat M) s1) as [imgs s2].
    pose proof (readObjectPoints_length (Z.to_nat M) s2) as Hobj.
    destruct (Calib.readObjectPoints extract_float (Z.to_nat M) s2) as [objs s3].
    destruct (Calib.readViews extract_int extract_float n s3)
      as [[imagePoints' objectPoints']|] eqn:Hrest; [ | discriminate ].
    intros [= <- <-]. destruct (IH _ _ _ Hrest) as [Hlen Hall].
    simpl in *. split; [ now rewrite Hlen | ].
    constructor; [ congruence | assumption ].
Qed.
End DataFile.

(** C9: for every data file the file front end gets through parsing,
    there are as many object-point sets as image-point sets and each
    view's two sets have the same length, both being sized by the one
    count M read for the view; no view has a count mismatch. *)
Theorem data_file_counts_match (IStream : Type)
        (extract_int : IStream -> Z * IStream)
        (extract_float : IStream -> Calib.double * IStream)
        (fail : IStream -> bool) (infile : IStream) (imageSize : Size)
        (imagePoints : list (list Calib.Point2f))
        (objectPoints : list (list Calib.Point3f)) :
  Calib.parseDataFile extract_int extract_float fail infile
  = Calib.Session imageSize imagePoints objectPoints ->
  List.length objectPoints = List.length imagePoints
  /\ Forall2 (fun o ip => List.length o = List.length ip) objectPoints imagePoints
  /\ ~ countMismatch objectPoints imagePoints.
Proof.
  unfold Calib.parseDataFile.
  destruct (extract_int infile) as [w s1]. destruct (extract_int s1) as [h s2].
  destruct (extract_int s2) as [N s3].
  destruct (fail s3); [ discriminate | ].
  destruct (N <? 0); [ discriminate | ].
  destruct (Calib.readViews extract_int extract_float (Z.to_nat N) s3)
    as [[imgs objs]|] eqn:Hviews; [ | discriminate ].
  intros [= <- <- <-].
  destruct (readViews_counts _ _ _ _ Hviews) as [_ Hall].
  split; [ now apply Forall2_length in Hall | split; [ assumption | ] ].
  intros (i & o & ip & Ho & Hip & Hneq). apply Hneq. clear Hneq Hviews.
  revert i Ho Hip. induction Hall as [|o' ip' objs' imgs' Hlen _ IH]; intros i Ho Hip.
  - now destruct i.
  - destruct i as [|i]; simpl in Ho, Hip.
    + congruence.
    + now apply (IH i).
Qed.

Lemma data_file_counts_match_witness :
  Calib.parseDataFile Sample.extract_int Sample.extract_float Sample.fail
    Sample.data_file
  = Calib.Session (mkSize 640 480)
      [[Calib.mkPoint2f (Sample.num 2) (Sample.num 0);
        Calib.mkPoint2f (Sample.num 3) (Sample.num 0)]]
      [[Calib.mkPoint3f (Sample.num 0) (Sample.num 0) (Sample.num 0);
        Calib.mkPoint3f (Sample.num 1) (Sample.num 0) (Sample.num 0)]]
  /\ Forall2 (fun o ip => List.length o = List.length ip)
       [[Calib.mkPoint3f (Sample.num 0) (Sample.num 0) (Sample.num 0);
         Calib.mkPoint3f (Sample.num 1) (Sample.num 0) (Sample.num 0)]]
       [[Calib.mkPoint2f (Sample.num 2) (Sample.num 0);
         Calib.mkPoint2f (Sample.num 3) (Sample.num 0)]].
Proof.
  assert (Hparse :
            Calib.parseDataFile Sample.extract_int Sample.extract_float Sample.fail
              Sample.data_file
            = Calib.Session (mkSize 640 480)
                [[Calib.mkPoint2f (Sample.num 2) (Sample.num 0);
                  Calib.mkPoint2f (Sample.num 3) (Sample.num 0)]]
                [[Calib.mkPoint3f (Sample.num 0) (Sample.num 0) (Sample.num 0);
                  Calib.mkPoint3f (Sample.num 1) (Sample.num 0) (Sample.num 0)]])
    by (vm_compute; reflexivity).
  split; [ exact Hparse | ].
  apply (data_file_counts_match _ _ _ _ Hparse).
Defined.

(** ** Reconciliation on a board of five points and three views *)

Definition five_points : list JsPoint :=
  [(Sample.num 0, Sample.num 0, None);
   (Sample.num 1, Sample.num 0, None);
   (Sample.num 2, Sample.num 0, Some (Sample.num 0));
   (Sample.num 0, Sample.num 1, None);
   (Sample.num 1, Sample.num 1, None)].

Definition three_views : list (list JsPoint) :=
  [[(Sample.num 0, Sample.num 0, None)];
   [(Sample.num 1, Sample.num 0, None); (Sample.num 2, Sample.num 0, None)];
   []].

Lemma object_points_shared_or_per_view_witness :
  Calib.reconcileObjectPoints Sample.fround (js_views three_views) 3
  = Ret (map (map (to_Point3f Sample.fround)) three_views)
  /\ Calib.reconcileObjectPoints Sample.fround (js_points five_points) 3
     = Ret (repeat (map (to_Point3f Sample.fround) five_points) 3).
Proof.
  split.
  - apply (proj1 (object_points_shared_or_per_view Sample.fround 3)).
    reflexivity.
  - apply (proj1 (proj2 (object_points_shared_or_per_view Sample.fround 3))).
    simpl. lia.
Defined.

(* ================================================================== *)
(** * Further properties of the detection code *)

(** ** How the search loop ends *)

Section SearchOutcome.
Variable Point2f : Type.
Variable find : Size -> bool * list Point2f.

Definition succeeds (s : Size) : Prop := fst (find s) = true.

(** Either the loop broke at the first success, or it ran through a list
    on which everything failed. *)
Lemma loop_outcome (sizes : list Size) :
  forall st,
    Search.found st = false ->
    (Search.found (Search.loop find sizes st) = true
     /\ exists pre post,
         sizes = pre ++ Search.foundSize (Search.loop find sizes st) :: post
         /\ Forall (fails find) pre
         /\ find (Search.foundSize (Search.loop find sizes st))
            = (true, Search.corners (Search.loop find sizes st))
         /\ Search.attempted (Search.loop find sizes st)
            = Search.attempted st ++ pre
              ++ [Search.foundSize (Search.loop find sizes st)])
    \/ (Search.found (Search.loop find sizes st) = false
        /\ Forall (fails find) sizes
        /\ Search.attempted (Search.loop find sizes st)
           = Search.attempted st ++ sizes).
Proof.
  induction sizes as [|p sizes IH]; intros st Hst.
  - right. simpl. rewrite app_nil_r. repeat split; [ assumption | constructor ].
  - simpl. destruct (find p) as [[|] cs] eqn:Hp.
    + left. simpl. split; [ reflexivity | ].
      exists [], sizes. repeat split; [ constructor | assumption ].
    + set (st' := Search.mkState false (Search.foundSize st) cs
                                 (Search.attempted st ++ [p])).
      assert (Hfail : fails find p) by (unfold fails; now rewrite Hp).
      destruct (IH st' eq_refl)
        as [(Hf & pre & post & Hsplit & Hpre & Hfound & Hatt) | (Hf & Hall & Hatt)].
      * left. split; [ assumption | ].
        exists (p :: pre), post. repeat split.
        -- simpl. now f_equal.
        -- now constructor.
        -- assumption.
        -- rewrite Hatt. unfold st'. simpl. now rewrite <- app_assoc.
      * right. repeat split.
        -- assumption.
        -- now constructor.
        -- rewrite Hatt. unfold st'. simpl. now rewrite <- app_assoc.
Qed.

Lemma search_outcome (sizes : list Size) :
  (Search.found (Search.search find sizes) = true
   /\ exists pre post,
       sizes = pre ++ Search.foundSize (Search.search find sizes) :: post
       /\ Forall (fails find) pre
       /\ find (Search.foundSize (Search.search find sizes))
          = (true, Search.corners (Search.search find sizes))
       /\ Search.attempted (Search.search find sizes)
          = pre ++ [Search.foundSize (Search.search find sizes)])
  \/ (Search.found (Search.search find sizes) = false
      /\ Forall (fails find) sizes
      /\ Search.attempted (Search.search find sizes) = sizes).
Proof. apply (loop_outcome sizes (Search.init Point2f) eq_refl). Qed.

Lemma fails_not_succeeds (s : Size) : fails find s -> ~ succeeds s.
Proof. unfold fails, succeeds. congruence. Qed.
End SearchOutcome.

(** The search ends found exactly when the finder succeeds on some
    candidate; the size it then reports is a candidate on which the
    finder did succeed, with the corners the finder left for it. *)
Theorem search_found_iff (Point2f : Type) (find : Size -> bool * list Point2f)
        (sizes : list Size) :
  (Search.found (Search.search find sizes) = true <-> Exists (succeeds find) sizes)
  /\ (Search.found (Search.search find sizes) = true ->
      In (Search.foundSize (Search.search find sizes)) sizes
      /\ find (Search.foundSize (Search.search find sizes))
         = (true, Search.corners (Search.search find sizes))).
Proof.
  destruct (search_outcome find sizes)
    as [(Hf & pre & post & Hsplit & Hpre & Hfound & _) | (Hf & Hall & _)].
  - assert (Hin : In (Search.foundSize (Search.search find sizes)) sizes).
    { rewrite Hsplit at 2. apply in_or_app. right. now left. }
    split.
    + split; [ intros _ | intros _; assumption ].
      apply Exists_exists. exists (Search.foundSize (Search.search find sizes)).
      split; [ assumption | ]. unfold succeeds. now rewrite Hfound.
    + intros _. now split.
  - split.
    + split; [ congruence | ].
      intros Hex. apply Exists_exists in Hex as (s & Hs & Hsucc).
      rewrite Forall_forall in Hall.
      now apply (fails_not_succeeds (Hall s Hs)) in Hsucc.
    + congruence.
Qed.

(** The finder is called on a prefix of the candidate list, in list
    order; every call but the last one failed, and the prefix is the
    whole list when the search ends not found. *)
Theorem search_attempts_prefix (Point2f : Type)
        (find : Size -> bool * list Point2f) (sizes : list Size) :
  exists rest,
    sizes = Search.attempted (Search.search find sizes) ++ rest
    /\ Forall (fails find) (removelast (Search.attempted (Search.search find sizes)))
    /\ (Search.found (Search.search find sizes) = false -> rest = []).
Proof.
  destruct (search_outcome find sizes)
    as [(Hf & pre & post & Hsplit & Hpre & _ & Hatt) | (Hf & Hall & Hatt)].
  - exists post. rewrite Hatt. repeat split.
    + now rewrite <- app_assoc.
    + now rewrite removelast_last.
    + congruence.
  - exists []. rewrite Hatt. repeat split.
    + now rewrite app_nil_r.
    + rewrite Forall_forall in *. intros s Hs. apply Hall.
      destruct sizes as [|p l]; [ contradiction | ].
      rewrite (app_removelast_last p (l := p :: l)) by discriminate.
      apply in_or_app. now left.
Qed.

Lemma search_found_iff_witness :
  Search.found (Search.search (finds_only (mkSize 8 5))
                  (Candidates.sizesToTry keeping_std_sort 6 9 (@nil unit))) = true
  /\ In (Search.foundSize
           (Search.search (finds_only (mkSize 8 5))
              (Candidates.sizesToTry keeping_std_sort 6 9 (@nil unit))))
        (Candidates.sizesToTry keeping_std_sort 6 9 (@nil unit)).
Proof.
  assert (Hf : Search.found
                 (Search.search (finds_only (mkSize 8 5))
                    (Candidates.sizesToTry keeping_std_sort 6 9 (@nil unit))) = true)
    by reflexivity.
  split; [ exact Hf | ].
  apply (proj2 (search_found_iff (finds_only (mkSize 8 5))
                  (Candidates.sizesToTry keeping_std_sort 6 9 (@nil unit))) Hf).
Defined.

Lemma search_attempts_prefix_witness :
  exists rest,
    Candidates.sizesToTry keeping_std_sort 6 9 (@nil unit)
    = Search.attempted
        (Search.search (finds_only (mkSize 6 9))
           (Candidates.sizesToTry keeping_std_sort 6 9 (@nil unit))) ++ rest
    /\ Forall (fails (finds_only (mkSize 6 9)))
         (removelast
            (Search.attempted
               (Search.search (finds_only (mkSize 6 9))
                  (Candidates.sizesToTry keeping_std_sort 6 9 (@nil unit)))))
    /\ (Search.found
          (Search.search (finds_only (mkSize 6 9))
             (Candidates.sizesToTry keeping_std_sort 6 9 (@nil unit))) = false ->
        rest = []).
Proof.
  apply (search_attempts_prefix (finds_only (mkSize 6 9))
           (Candidates.sizesToTry keeping_std_sort 6 9 (@nil unit))).
Defined.

(** ** What the candidate lists look like *)

Lemma in_hintSizes (rows cols : Z) (s : Size) :
  In s (Candidates.hintSizes rows cols) ->
  s = mkSize cols rows \/ s = mkSize rows cols
  \/ (cols > 1 /\ rows > 1
      /\ (s = mkSize (Int.sub cols 1) (Int.sub rows 1)
          \/ s = mkSize (Int.sub rows 1) (Int.sub cols 1))).
Proof.
  unfold Candidates.hintSizes.
  destruct ((cols >? 1) && (rows >? 1)) eqn:Hboth; simpl.
  - apply andb_true_iff in Hboth as [Hc Hr]. apply gtb_true_iff in Hc, Hr.
    intros [<- | [<- | [<- | [<- | []]]]]; auto; right; right;
      (split; [ lia | split; [ lia | auto ] ]).
  - intros [<- | [<- | []]]; auto.
Qed.

Lemma sizesToTry_positive_sides (S : StdSort) (A : Type)
        (features : list A) (rows cols : Z) (s : Size) :
  Int.in_range rows -> Int.in_range cols ->
  In s (Candidates.sizesToTry S rows cols features) ->
  1 <= width s /\ 1 <= height s.
Proof.
  intros Hr Hc. unfold Candidates.sizesToTry.
  destruct ((rows >? 0) && (cols >? 0)) eqn:Hmode.
  - apply andb_true_iff in Hmode as [Hr0 Hc0]. apply gtb_true_iff in Hr0, Hc0.
    intros Hin. apply in_hintSizes in Hin.
    destruct Hin as [-> | [-> | (Hc1 & Hr1 & Hs)]]; simpl; try lia.
    rewrite !int_sub_exact in Hs
      by (unfold Int.in_range, Int.INT_MIN, Int.INT_MAX in *; lia).
    destruct Hs as [-> | ->]; simpl; lia.
  - intros Hin. apply in_autoSizes, in_autoCandidates in Hin. lia.
Qed.

(** No size with a zero or negative side is ever tried: in either mode
    every candidate has width and height at least 1. *)
Theorem candidates_have_positive_sides (S : StdSort) (A : Type)
        (features : list A) (rows cols : Z) (s : Size) :
  Int.in_range rows -> Int.in_range cols ->
  In s (Candidates.sizesToTry S rows cols features) ->
  1 <= width s /\ 1 <= height s.
Proof. apply sizesToTry_positive_sides. Qed.

Lemma candidates_have_positive_sides_witness :
  1 <= width (mkSize 8 5) /\ 1 <= height (mkSize 8 5).
Proof.
  assert (H6 : Int.in_range 6) by (unfold Int.in_range, Int.INT_MIN, Int.INT_MAX; lia).
  assert (H9 : Int.in_range 9) by (unfold Int.in_range, Int.INT_MIN, Int.INT_MAX; lia).
  apply (@candidates_have_positive_sides keeping_std_sort unit (@nil unit)
           6 9 (mkSize 8 5) H6 H9).
  simpl. auto.
Defined.

(** In either mode the candidate list holds a size together with its
    transpose. *)
Theorem candidates_closed_under_transpose (S : StdSort) (A : Type)
        (features : list A) (rows cols : Z) (s : Size) :
  In s (Candidates.sizesToTry S rows cols features) ->
  In (mkSize (height s) (width s)) (Candidates.sizesToTry S rows cols features).
Proof.
  unfold Candidates.sizesToTry. destruct ((rows >? 0) && (cols >? 0)).
  - unfold Candidates.hintSizes. destruct ((cols >? 1) && (rows >? 1)); simpl.
    + intros [<- | [<- | [<- | [<- | []]]]]; simpl; auto.
    + intros [<- | [<- | []]]; simpl; auto.
  - rewrite !in_autoSizes, !in_autoCandidates. cbn [height width].
    unfold Int.mul. rewrite (Z.mul_comm (width s) (height s)). tauto.
Qed.

Lemma candidates_closed_under_transpose_witness :
  In (mkSize 5 8) (Candidates.sizesToTry keeping_std_sort 6 9 (@nil unit)).
Proof.
  apply (@candidates_closed_under_transpose keeping_std_sort unit (@nil unit)
           6 9 (mkSize 8 5)).
  simpl. auto.
Defined.

(** A larger feature count never removes a candidate. *)
Theorem auto_candidates_grow (S : StdSort) (d d' : Z) :
  0 <= d -> d <= d' -> d' <= Int.INT_MAX - 20 ->
  incl (Candidates.autoSizes S d) (Candidates.autoSizes S d').
Proof.
  intros H0 Hle Hmax s. rewrite !in_autoSizes, !in_autoCandidates.
  rewrite !int_add_exact
    by (unfold Int.in_range, Int.INT_MIN, Int.INT_MAX in *; lia).
  intros [Hsides Hcount]. split; [ assumption | lia ].
Qed.

Lemma auto_candidates_grow_witness :
  incl (Candidates.autoSizes keeping_std_sort 0)
       (Candidates.autoSizes keeping_std_sort 40).
Proof.
  apply auto_candidates_grow; unfold Int.INT_MAX; lia.
Defined.

Lemma filter_all (A : Type) (p : A -> bool) (l : list A) :
  (forall a, In a l -> p a = true) -> filter p l = l.
Proof.
  induction l as [|a l IH]; intros Hp; simpl; [ reflexivity | ].
  rewrite (Hp a) by now left. f_equal. apply IH. intros b Hb. apply Hp. now right.
Qed.

(** From 380 features on, all 324 sizes from 3x3 to 20x20 are candidates
    and the first one tried is 20x20. *)
Theorem auto_candidates_saturate (S : StdSort) (d : Z) :
  380 <= d <= Int.INT_MAX - 20 ->
  Permutation allBoards (Candidates.autoSizes S d)
  /\ List.length (Candidates.autoSizes S d) = 324%nat
  /\ exists rest, Candidates.autoSizes S d = mkSize 20 20 :: rest.
Proof.
  intros Hd.
  assert (Hperm : Permutation allBoards (Candidates.autoSizes S d)).
  { unfold Candidates.autoSizes.
    etransitivity; [ | apply std_sort_permutation ].
    rewrite autoCandidates_filter, filter_all; [ reflexivity | ].
    intros s Hs. apply in_allBoards in Hs. unfold withinCount.
    rewrite int_mul_exact by now apply board_area_in_range.
    rewrite int_add_exact
      by (unfold Int.in_range, Int.INT_MIN, Int.INT_MAX in *; lia).
    apply Z.leb_le. nia. }
  split; [ exact Hperm | split ].
  - rewrite <- (Permutation_length Hperm). vm_compute. reflexivity.
  - pose proof (autoSizes_area_descending S d) as Hsorted.
    assert (Hin : In (mkSize 20 20) (Candidates.autoSizes S d)).
    { apply (Permutation_in _ Hperm), in_allBoards. simpl. lia. }
    assert (Hsides : forall s, In s (Candidates.autoSizes S d) ->
                               3 <= height s <= 20 /\ 3 <= width s <= 20).
    { intros s Hs. apply in_allBoards.
      apply (Permutation_in _ (Permutation_sym Hperm) Hs). }
    destruct (Candidates.autoSizes S d) as [|first rest]; [ contradiction | ].
    exists rest. f_equal.
    inversion Hsorted as [|? ? _ Hfirst]; subst.
    assert (Harea : area first >= 400).
    { destruct Hin as [-> | Hin]; [ unfold area; simpl; lia | ].
      rewrite Forall_forall in Hfirst.
      specialize (Hfirst _ Hin). unfold area in *. simpl in Hfirst. lia. }
    specialize (Hsides first (or_introl eq_refl)).
    destruct first as [w h]. unfold area in Harea. simpl in *.
    assert (w = 20 /\ h = 20) as [-> ->] by nia. reflexivity.
Qed.

Lemma auto_candidates_saturate_witness :
  exists rest, Candidates.autoSizes keeping_std_sort 500 = mkSize 20 20 :: rest.
Proof.
  apply (auto_candidates_saturate keeping_std_sort (d := 500)).
  unfold Int.INT_MAX. lia.
Defined.

(** ** What a detection reports *)

Lemma StronglySorted_suffix (A : Type) (R : A -> A -> Prop) (pre l : list A) :
  StronglySorted R (pre ++ l) -> StronglySorted R l.
Proof.
  induction pre as [|a pre IH]; simpl; intros Hs; [ assumption | ].
  inversion Hs; subst. now apply IH.
Qed.

(** In auto mode the size found is a largest one the finder accepts: no
    candidate on which the finder succeeds has a larger area. *)
Theorem auto_search_finds_largest (S : StdSort) (Point2f : Type)
        (find : Size -> bool * list Point2f) (features : list Point2f)
        (rows cols : Z) (s : Size) :
  ~ (rows > 0 /\ cols > 0) ->
  Search.found (Search.search find (Candidates.sizesToTry S rows cols features))
  = true ->
  In s (Candidates.sizesToTry S rows cols features) ->
  succeeds find s ->
  area s
  <= area (Search.foundSize
             (Search.search find (Candidates.sizesToTry S rows cols features))).
Proof.
  intros Hauto Hfound Hin Hsucc.
  assert (Hmode : (rows >? 0) && (cols >? 0) = false)
    by (rewrite andb_false_iff, !gtb_false_iff; lia).
  unfold Candidates.sizesToTry in *. rewrite Hmode in *.
  pose proof (autoSizes_area_descending S (Int.of_size (List.length features)))
    as Hsorted.
  destruct (search_outcome find
              (Candidates.autoSizes S (Int.of_size (List.length features))))
    as [(_ & pre & post & Hsplit & Hpre & _ & _) | (Hf & _ & _)];
    [ | congruence ].
  rewrite Hsplit in Hin, Hsorted.
  apply in_app_or in Hin as [Hin | [<- | Hin]].
  - rewrite Forall_forall in Hpre.
    now apply (fails_not_succeeds (Hpre s Hin)) in Hsucc.
  - lia.
  - apply StronglySorted_suffix in Hsorted.
    inversion Hsorted as [|? ? _ Hall]; subst.
    rewrite Forall_forall in Hall. specialize (Hall s Hin). lia.
Qed.

(** A finder for examples that accepts exactly the square boards. *)
Definition finds_squares (s : Size) : bool * list (Z * Z) :=
  if width s =? height s then (true, grid s) else (false, []).

Lemma auto_search_finds_largest_witness :
  area (mkSize 3 3)
  <= area (Search.foundSize
             (Search.search finds_squares
                (Candidates.sizesToTry keeping_std_sort 0 0 (@nil (Z * Z))))).
Proof.
  apply (@auto_search_finds_largest keeping_std_sort (Z * Z)%type finds_squares
           (@nil (Z * Z)) 0 0 (mkSize 3 3)).
  - lia.
  - vm_compute. reflexivity.
  - vm_compute. auto 12.
  - reflexivity.
Defined.

Section DetectReports.
Variables Mat Point2f : Type.
Variable goodFeaturesToTrack : Mat -> list Point2f.
Variable findChessboardCorners : Mat -> Size -> bool * list Point2f.
Variable cornerSubPix : Mat -> list Point2f -> list Point2f.
Variable S : StdSort.

Lemma detectCorners_found (gray : Mat) (rows cols : Z) :
  Detect.o_found
    (Detect.detectCorners goodFeaturesToTrack findChessboardCorners cornerSubPix S
                          gray rows cols)
  = Search.found
      (Detect.detect goodFeaturesToTrack findChessboardCorners S gray rows cols).
Proof.
  unfold Detect.detectCorners.
  now destruct (Search.found
                  (Detect.detect goodFeaturesToTrack findChessboardCorners S
                                 gray rows cols)).
Qed.
End DetectReports.

(** When a hinted detection of the embedded front end succeeds, the rows
    and cols it reports are the hint, the hint swapped, or (for a hint
    above 1 on both axes) the hint less one on both axes, either way
    round. *)
Theorem hinted_detection_reports (Mat Point2f : Type)
        (goodFeaturesToTrack : Mat -> list Point2f)
        (findChessboardCorners : Mat -> Size -> bool * list Point2f)
        (cornerSubPix : Mat -> list Point2f -> list Point2f)
        (S : StdSort) (gray : Mat) (rows cols : Z) :
  Int.in_range rows -> Int.in_range cols -> rows > 0 -> cols > 0 ->
  Detect.o_found
    (Detect.detectCorners goodFeaturesToTrack findChessboardCorners cornerSubPix S
                          gray rows cols) = true ->
  exists r c,
    Detect.o_rows
      (Detect.detectCorners goodFeaturesToTrack findChessboardCorners cornerSubPix S
                            gray rows cols) = Some r
    /\ Detect.o_cols
         (Detect.detectCorners goodFeaturesToTrack findChessboardCorners cornerSubPix
                               S gray rows cols) = Some c
    /\ ((r = rows /\ c = cols) \/ (r = cols /\ c = rows)
        \/ (rows > 1 /\ cols > 1
            /\ ((r = rows - 1 /\ c = cols - 1) \/ (r = cols - 1 /\ c = rows - 1)))).
Proof.
  intros Hr Hc Hr0 Hc0. rewrite detectCorners_found. intros Hfound.
  unfold Detect.detectCorners. rewrite Hfound. simpl.
  unfold Detect.detect in *.
  assert (Hin : In (Search.foundSize
                      (Search.search (findChessboardCorners gray)
                         (Candidates.sizesToTry S rows cols
                                                (goodFeaturesToTrack gray))))
                   (Candidates.sizesToTry S rows cols (goodFeaturesToTrack gray))).
  { destruct (search_outcome (findChessboardCorners gray)
                (Candidates.sizesToTry S rows cols (goodFeaturesToTrack gray)))
      as [(_ & pre & post & Hsplit & _) | (Hf & _)]; [ | congruence ].
    rewrite Hsplit at 2. apply in_or_app. right. now left. }
  unfold Candidates.sizesToTry in Hin at 2.
  assert (Hmode : (rows >? 0) && (cols >? 0) = true)
    by (rewrite andb_true_iff, !gtb_true_iff; lia).
  rewrite Hmode in Hin. apply in_hintSizes in Hin.
  eexists. eexists. split; [ reflexivity | split; [ reflexivity | ] ].
  destruct Hin as [-> | [-> | (Hc1 & Hr1 & Hs)]]; simpl; auto.
  rewrite !int_sub_exact in Hs
    by (unfold Int.in_range, Int.INT_MIN, Int.INT_MAX in *; lia).
  right. right. split; [ lia | split; [ lia | ] ].
  destruct Hs as [-> | ->]; simpl; auto.
Qed.

(** The file front end picks its failure message by [rows > 0] alone.
    With rows > 0 and cols <= 0 the search ran in auto mode, yet the
    message is the hinted one and names a size that was never tried; with
    a hint that has a side equal to 1 the message names a second size,
    one less on both axes, that was never tried either. *)
Theorem failure_message_names_untried_sizes (Mat Point2f : Type)
        (goodFeaturesToTrack : Mat -> list Point2f)
        (findChessboardCorners : Mat -> Size -> bool * list Point2f)
        (cornerSubPix : Mat -> list Point2f -> list Point2f)
        (S : StdSort) (imgCols imgRows : Z) (gray : Mat) (rows cols : Z) :
  Int.in_range rows -> Int.in_range cols -> rows > 0 ->
  Search.found
    (Detect.detect goodFeaturesToTrack findChessboardCorners S gray rows cols)
  = false ->
  Detect.detect_main goodFeaturesToTrack findChessboardCorners cornerSubPix S
                     imgCols imgRows gray rows cols
  = Detect.NotFoundTried Point2f cols rows (Int.sub cols 1) (Int.sub rows 1)
  /\ (cols <= 0 ->
      ~ In (mkSize cols rows)
           (Search.attempted
              (Detect.detect goodFeaturesToTrack findChessboardCorners S
                             gray rows cols)))
  /\ (cols > 0 -> rows = 1 \/ cols = 1 ->
      ~ In (mkSize (Int.sub cols 1) (Int.sub rows 1))
           (Search.attempted
              (Detect.detect goodFeaturesToTrack findChessboardCorners S
                             gray rows cols))).
Proof.
  intros Hr Hc Hr0 Hnot.
  assert (Hrows : (rows >? 0) = true) by (apply gtb_true_iff; lia).
  split; [ | split ].
  - unfold Detect.detect_main. now rewrite Hnot, Hrows.
  - intros Hc0 Hin. unfold Detect.detect in *.
    destruct (search_outcome (findChessboardCorners gray)
                (Candidates.sizesToTry S rows cols (goodFeaturesToTrack gray)))
      as [(Hf & _) | (_ & _ & Hsplit)]; [ congruence | ].
    assert (Hcand : In (mkSize cols rows)
                       (Candidates.sizesToTry S rows cols (goodFeaturesToTrack gray)))
      by now rewrite <- Hsplit.
    apply (@sizesToTry_positive_sides S Point2f (goodFeaturesToTrack gray)
             rows cols _ Hr Hc) in Hcand.
    simpl in Hcand. lia.
  - intros Hc0 Hone Hin. unfold Detect.detect in *.
    destruct (search_outcome (findChessboardCorners gray)
                (Candidates.sizesToTry S rows cols (goodFeaturesToTrack gray)))
      as [(Hf & _) | (_ & _ & Hsplit)]; [ congruence | ].
    assert (Hcand : In (mkSize (Int.sub cols 1) (Int.sub rows 1))
                       (Candidates.sizesToTry S rows cols (goodFeaturesToTrack gray)))
      by now rewrite <- Hsplit.
    apply (@sizesToTry_positive_sides S Point2f (goodFeaturesToTrack gray)
             rows cols _ Hr Hc) in Hcand.
    simpl in Hcand.
    rewrite !int_sub_exact in Hcand
      by (unfold Int.in_range, Int.INT_MIN, Int.INT_MAX in *; lia).
    lia.
Qed.

(** Collaborators for examples: an image that shows one board, no
    feature points, a refiner that leaves the corners alone. *)
Definition shows (board : Size) (gray : unit) : Size -> bool * list (Z * Z) :=
  finds_only board.
Definition no_features (gray : unit) : list (Z * Z) := [].
Definition keep_corners (gray : unit) (cs : list (Z * Z)) : list (Z * Z) := cs.

Lemma hinted_detection_reports_witness :
  exists r c,
    Detect.o_rows
      (Detect.detectCorners no_features (shows (mkSize 8 5)) keep_corners
                            keeping_std_sort tt 6 9) = Some r
    /\ Detect.o_cols
         (Detect.detectCorners no_features (shows (mkSize 8 5)) keep_corners
                               keeping_std_sort tt 6 9) = Some c
    /\ ((r = 6 /\ c = 9) \/ (r = 9 /\ c = 6)
        \/ (6 > 1 /\ 9 > 1 /\ ((r = 6 - 1 /\ c = 9 - 1) \/ (r = 9 - 1 /\ c = 6 - 1)))).
Proof.
  apply (@hinted_detection_reports unit (Z * Z)%type no_features
           (shows (mkSize 8 5)) keep_corners keeping_std_sort tt 6 9);
    try (unfold Int.in_range, Int.INT_MIN, Int.INT_MAX; lia).
  reflexivity.
Defined.

Lemma failure_message_names_untried_sizes_witness :
  Detect.detect_main no_features (fun _ => finds_nothing) keep_corners
                     keeping_std_sort 640 480 tt 7 0
  = Detect.NotFoundTried (Z * Z) 0 7 (Int.sub 0 1) (Int.sub 7 1)
  /\ ~ In (mkSize 0 7)
          (Search.attempted
             (Detect.detect no_features (fun _ => finds_nothing)
                            keeping_std_sort tt 7 0)).
Proof.
  assert (H7 : Int.in_range 7) by (unfold Int.in_range, Int.INT_MIN, Int.INT_MAX; lia).
  assert (H0 : Int.in_range 0) by (unfold Int.in_range, Int.INT_MIN, Int.INT_MAX; lia).
  assert (Hpos : 7 > 0) by lia.
  assert (Hnot : Search.found
                   (Detect.detect no_features (fun _ : unit => finds_nothing)
                                  keeping_std_sort tt 7 0) = false)
    by (vm_compute; reflexivity).
  destruct (@failure_message_names_untried_sizes unit (Z * Z)%type no_features
              (fun _ => finds_nothing) keep_corners keeping_std_sort 640 480 tt
              7 0 H7 H0 Hpos Hnot) as (Hmsg & Hauto & _).
  split; [ exact Hmsg | apply Hauto; lia ].
Defined.

(* ================================================================== *)
(** * The command-line entry points *)

(** ** [detect_corners.cpp] [main], from [argv] *)

(** Sequencing of OpenCV calls outside any handler: the first exception
    ends the sequence. *)
Definition and_then (A B : Type) (r : CvResult A) (k : A -> CvResult B)
  : CvResult B :=
  match r with
  | Ok a => k a
  | Raise what => Raise what
  end.

Declare Scope cv_scope.
Delimit Scope cv_scope with cv.
Notation "x <~ r ;; k" := (and_then r (fun x => k))
  (at level 100, r at next level, right associativity) : cv_scope.

Module DetectCli.
Section Main.
Variables Mat Point2f : Type.

(** [std::stoi]: the number read, or [None] when it throws (caught by
    the handler around the two conversions). *)
Variable stoi : string -> option Z.
(** The OpenCV calls of [main]; none of them is inside a handler. *)
Variable imread : string -> CvResult Mat.
Variable cvtColor : Mat -> CvResult Mat.
Variable goodFeaturesToTrack : Mat -> CvResult (list Point2f).
Variable findChessboardCorners : Mat -> Size -> CvResult (bool * list Point2f).
Variable cornerSubPix : Mat -> list Point2f -> CvResult (list Point2f).
(** [Mat::empty], [img.cols], [img.rows]. *)
Variable empty : Mat -> bool.
Variable Mat_cols : Mat -> Z.
Variable Mat_rows : Mat -> Z.
Variable S : StdSort.

(** What is written to standard output. *)
Inductive Output : Type :=
| Usage
  (** error: Usage: ./detect_corners image_path rows cols *)
| InvalidArguments
  (** error: Invalid rows/cols arguments *)
| CouldNotRead (imagePath : string)
  (** error: Could not read image at imagePath *)
| Report (out : Detect.DetectOutput Point2f).

(** How the process ends: [main] returns, or an exception nothing
    catches ends it. *)
Inductive Ending : Type :=
| Returned (out : Output) (code : Z)
| Terminated (what : string).

(** Lines 36-85. *)
Definition candidates (gray : Mat) (rows cols : Z) : CvResult (list Size) :=
  if (rows >? 0) && (cols >? 0)
  then Ok (Candidates.hintSizes rows cols)
  else (features <~ goodFeaturesToTrack gray ;;
        Ok (Candidates.autoSizes S (Int.of_size (List.length features))))%cv.

(** Lines 94-105. *)
Fixpoint loop (gray : Mat) (sizes : list Size) (st : Search.State Point2f)
  : CvResult (Search.State Point2f) :=
  match sizes with
  | [] => Ok st
  | size :: rest =>
      (r <~ findChessboardCorners gray size ;;
       let (ok, cs) := r : bool * list Point2f in
       let st' := Search.mkState ok (if ok then size else Search.foundSize st) cs
                                 (Search.attempted st ++ [size]) in
       if ok then Ok st' else loop gray rest st')%cv
  end.

(** Lines 107-135. *)
Definition report (imgCols imgRows : Z) (gray : Mat) (rows cols : Z)
           (st : Search.State Point2f) : CvResult (Detect.DetectOutput Point2f) :=
  if Search.found st
  then (corners <~ cornerSubPix gray (Search.corners st) ;;
        Ok (Detect.Detected (height (Search.foundSize st))
                            (width (Search.foundSize st))
                            imgCols imgRows corners))%cv
  else Ok (if rows >? 0
           then Detect.NotFoundTried Point2f cols rows
                                     (Int.sub cols 1) (Int.sub rows 1)
           else Detect.AutoDetectionFailed Point2f).

(** Lines 27-137, once the arguments are parsed. *)
Definition run (imagePath : string) (rows cols : Z) : CvResult (Output * Z) :=
  (img <~ imread imagePath ;;
   if empty img then Ok (CouldNotRead imagePath, 0)
   else
     gray <~ cvtColor img ;;
     sizes <~ candidates gray rows cols ;;
     st <~ loop gray sizes (Search.init Point2f) ;;
     out <~ report (Mat_cols img) (Mat_rows img) gray rows cols st ;;
     Ok (Report out, 0))%cv.

(** [args] is [argv[1]], [argv[2]], ...; [argc = 1 + length args]. *)
Definition main (args : list string) : Ending :=
  match args with
  | imagePath :: a2 :: a3 :: _ =>
      match stoi a2 with
      | None => Returned InvalidArguments 1
      | Some rows =>
          match stoi a3 with
          | None => Returned InvalidArguments 1
          | Some cols =>
              match run imagePath rows cols with
              | Ok (out, code) => Returned out code
              | Raise what => Terminated what
              end
          end
      end
  | _ => Returned Usage 1
  end.
End Main.
End DetectCli.

(** ** [calibrate_camera.cpp] [main], from [argv] *)

Module CalibCli.
Section Main.
Variable Mat : Type.
Variable cv_calibrateCamera :
  list (list Calib.Point3f) -> list (list Calib.Point2f) -> Size
  -> CvResult (Calib.SolverOutput Mat).
Variable cv_projectPoints :
  list Calib.Point3f -> Mat -> Mat -> Mat -> Mat -> CvResult (list Calib.Point2f).
Variable cv_norm : Calib.Norm.
Variable IStream : Type.
Variable extract_int : IStream -> Z * IStream.
Variable extract_float : IStream -> Calib.double * IStream.
Variable fail : IStream -> bool.
(** [ifstream infile(dataPath)]: the stream, or [None] when
    [is_open()] is false. *)
Variable open : string -> option IStream.

Inductive Ending : Type :=
| UsageOnStderr
  (** nothing on standard output, exit code 1 *)
| Ran (e : Calib.CliExit Mat).

Definition main (args : list string) : Ending :=
  match args with
  | [] => UsageOnStderr
  | dataPath :: _ =>
      Ran (Calib.calibrate_main cv_calibrateCamera cv_projectPoints cv_norm
             extract_int extract_float fail (open dataPath))
  end.
End Main.
End CalibCli.

(** ** Exit codes *)

Section DetectCliFacts.
Variables Mat Point2f : Type.
Variable stoi : string -> option Z.
Variable imread : string -> CvResult Mat.
Variable cvtColor : Mat -> CvResult Mat.
Variable goodFeaturesToTrack : Mat -> CvResult (list Point2f).
Variable findChessboardCorners : Mat -> Size -> CvResult (bool * list Point2f).
Variable cornerSubPix : Mat -> list Point2f -> CvResult (list Point2f).
Variable empty : Mat -> bool.
Variable Mat_cols : Mat -> Z.
Variable Mat_rows : Mat -> Z.
Variable S : StdSort.


(** With a corner finder that never throws the loop is the search loop. *)
Lemma loop_without_exceptions (find : Mat -> Size -> bool * list Point2f)
      (gray : Mat) (sizes : list Size) :
  (forall size, findChessboardCorners gray size = Ok (find gray size)) ->
  forall st,
    DetectCli.loop findChessboardCorners gray sizes st
    = Ok (Search.loop (find gray) sizes st).
Proof.
  intros Hfind. induction sizes as [|size rest IH]; intros st; simpl.
  - reflexivity.
  - rewrite Hfind. simpl. destruct (find gray size) as [[|] cs]; [ reflexivity | ].
    apply IH.
Qed.
End DetectCliFacts.


(** When no OpenCV call throws, [main] prints what the detection of
    [Detect.detect_main] yields and returns 0. *)
Lemma main_without_exceptions (Mat Point2f : Type) (stoi : string -> option Z)
      (imread : string -> Mat) (cvtColor : Mat -> Mat)
      (goodFeaturesToTrack : Mat -> list Point2f)
      (findChessboardCorners : Mat -> Size -> bool * list Point2f)
      (cornerSubPix : Mat -> list Point2f -> list Point2f)
      (empty : Mat -> bool) (Mat_cols Mat_rows : Mat -> Z) (S : StdSort)
      (imagePath a2 a3 : string) (rest : list string) (rows cols : Z) :
  stoi a2 = Some rows -> stoi a3 = Some cols ->
  empty (imread imagePath) = false ->
  DetectCli.main stoi (fun p => Ok (imread p)) (fun m => Ok (cvtColor m))
                 (fun m => Ok (goodFeaturesToTrack m))
                 (fun m size => Ok (findChessboardCorners m size))
                 (fun m cs => Ok (cornerSubPix m cs))
                 empty Mat_cols Mat_rows S (imagePath :: a2 :: a3 :: rest)
  = DetectCli.Returned
      (DetectCli.Report
         (Detect.detect_main goodFeaturesToTrack findChessboardCorners cornerSubPix S
            (Mat_cols (imread imagePath)) (Mat_rows (imread imagePath))
            (cvtColor (imread imagePath)) rows cols))
      0.
Proof.
  intros H2 H3 Hempty. unfold DetectCli.main, DetectCli.run.
  rewrite H2, H3. simpl. rewrite Hempty.
  unfold DetectCli.candidates, Detect.detect_main, Detect.detect,
    Candidates.sizesToTry, Search.search.
  destruct ((rows >? 0) && (cols >? 0)); simpl;
    rewrite (@loop_without_exceptions Mat Point2f
               (fun m size => Ok (findChessboardCorners m size))
               findChessboardCorners) by reflexivity;
    simpl; unfold DetectCli.report;
    match goal with
    | |- context [Search.found ?st] => destruct (Search.found st)
    end; reflexivity.
Qed.

(** Collaborators for examples: a decoder that reads every path, and a
    corner finder that, like OpenCV's, rejects a pattern with a side of 2
    or less by throwing. *)
Definition reads_any (path : string) : CvResult unit := Ok tt.
Definition same_image (img : unit) : CvResult unit := Ok tt.
Definition detects_no_features (gray : unit) : CvResult (list (Z * Z)) := Ok [].
Definition refines_nothing (gray : unit) (cs : list (Z * Z))
  : CvResult (list (Z * Z)) := Ok cs.
Definition strict_finder (board : Size) (gray : unit) (s : Size)
  : CvResult (bool * list (Z * Z)) :=
  if (width s <=? 2) || (height s <=? 2)
  then Raise "pattern size must be larger than 2"
  else Ok (finds_only board s).
Definition decimal (s : string) : option Z :=
  if String.eqb s "3" then Some 3
  else if String.eqb s "6" then Some 6
  else if String.eqb s "9" then Some 9
  else None.


(** A hint of 3 by 3 on an image without such a board: after the two
    3x3 attempts the 2x2 candidate reaches the finder, which throws, and
    the process ends without an exit code of 0 or 1. *)
Lemma small_hint_ends_the_process :
  DetectCli.main decimal reads_any same_image detects_no_features
    (strict_finder (mkSize 8 5)) refines_nothing (fun _ => false)
    (fun _ => 640) (fun _ => 480) keeping_std_sort
    ["board.png"; "3"; "3"]%string
  = DetectCli.Terminated (Z * Z) "pattern size must be larger than 2".
Proof. vm_compute. reflexivity. Qed.

(** The exit code of a run of [calibrate_camera], when it ends by
    returning from [main]. *)
Definition calib_exit_code (Mat : Type) (e : CalibCli.Ending Mat) : option Z :=
  match e with
  | CalibCli.UsageOnStderr _ => Some 1
  | CalibCli.Ran (Calib.Exit code _) => Some code
  | CalibCli.Ran _ => None
  end.

(** [calibrate_camera] returns 1 exactly when no argument is given, the
    file cannot be opened or its header does not read as three numbers;
    a solver failure, a re-projection failure and a success all return
    0. *)
Theorem calibrate_exit_code (Mat : Type)
        (solver : list (list Calib.Point3f) -> list (list Calib.Point2f) -> Size
                  -> CvResult (Calib.SolverOutput Mat))
        (project : list Calib.Point3f -> Mat -> Mat -> Mat -> Mat
                   -> CvResult (list Calib.Point2f))
        (norm : Calib.Norm)
        (IStream : Type)
        (extract_int : IStream -> Z * IStream)
        (extract_float : IStream -> Calib.double * IStream)
        (fail : IStream -> bool) (open : string -> option IStream)
        (args : list string) (code : Z) :
  calib_exit_code
    (CalibCli.main solver project norm extract_int extract_float fail open args)
  = Some code ->
  (code = 0 \/ code = 1)
  /\ (code = 1
      <-> args = []
          \/ exists dataPath rest,
              args = dataPath :: rest
              /\ (open dataPath = None
                  \/ exists infile,
                      open dataPath = Some infile
                      /\ Calib.parseDataFile extract_int extract_float fail infile
                         = Calib.InvalidHeader)).
Proof.
  destruct args as [|dataPath rest]; simpl.
  - intros [= <-]. split; [ now right | ]. split; [ now left | reflexivity ].
  - unfold Calib.calibrate_main.
    destruct (open dataPath) as [infile|] eqn:Hopen; simpl.
    + destruct (Calib.parseDataFile extract_int extract_float fail infile)
        as [ | | imageSize imagePoints objectPoints] eqn:Hparse; simpl.
      * intros [= <-]. split; [ now right | ]. split; [ | reflexivity ].
        intros _. right. exists dataPath, rest. split; [ reflexivity | ].
        right. exists infile. now split.
      * discriminate.
      * assert (Hno : forall c : Z,
                   c = 0 ->
                   (c = 0 \/ c = 1)
                   /\ (c = 1 <->
                       dataPath :: rest = []
                       \/ exists dataPath0 rest0,
                           dataPath :: rest = dataPath0 :: rest0
                           /\ (open dataPath0 = None
                               \/ exists infile0,
                                   open dataPath0 = Some infile0
                                   /\ Calib.parseDataFile extract_int extract_float
                                        fail infile0 = Calib.InvalidHeader))).
        { intros c ->. split; [ now left | ]. split; [ discriminate | ].
          intros [Hnil | (p & r & Heq & [Hnone | (s & Hs & Hhdr)])];
            [ discriminate | | ]; injection Heq as <- <-.
          - congruence.
          - rewrite Hopen in Hs. injection Hs as <-. congruence. }
        destruct (solver objectPoints imagePoints imageSize) as [out|what]; simpl.
        -- destruct (Calib.reprojectionErrors project norm objectPoints imagePoints out);
             simpl; try discriminate; intros [= <-]; now apply Hno.
        -- intros [= <-]. now apply Hno.
    + intros [= <-]. split; [ now right | ]. split; [ | reflexivity ].
      intros _. right. exists dataPath, rest. split; [ reflexivity | now left ].
Qed.

Lemma calibrate_exit_code_witness : 0 = 0 \/ 0 = 1.
Proof.
  apply (@calibrate_exit_code unit Sample.strict_solver Sample.failing_project
           Sample.norm Sample.Tokens Sample.extract_int Sample.extract_float
           Sample.fail (fun _ => Some Sample.data_file) ["data.txt"%string] 0).
  vm_compute. reflexivity.
Defined.

(** ** Printing a vector as a JSON array body

    The loops that print [corners] ([detect_corners.cpp] 122-125) and
    [dist_coeffs], [rvecs], [tvecs], [perViewErrors]
    ([calibrate_camera.cpp] 105-107, 112-119, 123-129, 133-135) all have
    one shape: print element [i], then a comma when [i < v.size() - 1],
    the subtraction being unsigned. *)

Module Emit.
Section Loop.
(** [SIZE_MAX] of the platform's [size_t]. *)
Variable SIZE_MAX : Z.
Variable A : Type.
(** What [cout <<] writes for one element. *)
Variable show : A -> string.

Definition size_sub (a b : Z) : Z := (a - b) mod (SIZE_MAX + 1).

(** The passes from index [i] on; [rest] is [v[i]], [v[i+1]], ... *)
Fixpoint separated_from (v : list A) (i : nat) (rest : list A) : string :=
  match rest with
  | [] => ""
  | a :: rest' =>
      show a
      ++ (if Z.of_nat i <? size_sub (Z.of_nat (List.length v)) 1 then "," else "")
      ++ separated_from v (S i) rest'
  end.

Definition separated (v : list A) : string := separated_from v 0 v.
End Loop.
End Emit.

Lemma append_empty_r (s : string) : (s ++ "")%string = s.
Proof. induction s as [|c s IH]; simpl; [ reflexivity | now rewrite IH ]. Qed.

Lemma separated_from_concat (SIZE_MAX : Z) (A : Type) (show : A -> string)
      (v : list A) :
  Z.of_nat (List.length v) <= SIZE_MAX ->
  forall rest i,
    (i + List.length rest = List.length v)%nat ->
    Emit.separated_from SIZE_MAX show v i rest = String.concat "," (map show rest).
Proof.
  intros Hmax. induction rest as [|a rest IH]; intros i Hi; simpl.
  - reflexivity.
  - simpl in Hi. rewrite (IH (Datatypes.S i)) by lia.
    unfold Emit.size_sub. rewrite Z.mod_small by lia.
    destruct rest as [|b rest]; simpl.
    + simpl in Hi.
      assert (Hlast : (Z.of_nat i <? Z.of_nat (List.length v) - 1) = false)
        by (apply Z.ltb_ge; lia).
      rewrite Hlast. simpl. apply append_empty_r.
    + simpl in Hi.
      assert (Hmore : (Z.of_nat i <? Z.of_nat (List.length v) - 1) = true)
        by (apply Z.ltb_lt; lia).
      now rewrite Hmore.
Qed.

(** The array body printed for a vector is its elements joined by
    commas: one comma between neighbours, none after the last element,
    nothing at all for an empty vector. *)
Theorem printed_array_is_comma_joined (SIZE_MAX : Z) (A : Type)
        (show : A -> string) (v : list A) :
  Z.of_nat (List.length v) <= SIZE_MAX ->
  Emit.separated SIZE_MAX show v = String.concat "," (map show v).
Proof.
  intros Hmax. unfold Emit.separated.
  now apply separated_from_concat.
Qed.

Lemma printed_array_is_comma_joined_witness :
  Emit.separated 18446744073709551615 (fun s : string => s)
                 ["0.5"; "0.25"; "1"]%string
  = "0.5,0.25,1"%string.
Proof.
  apply (@printed_array_is_comma_joined 18446744073709551615 string
           (fun s => s) ["0.5"; "0.25"; "1"]%string).
  simpl. lia.
Defined.

(* ================================================================== *)
(** * Further properties of the calibration code *)

(** ** How a vector-filling loop stops *)

Section CollectStops.
Variable A : Type.
Variable f : nat -> Exec A.

Lemma collect_thrown_iff (what : string) :
  forall n i,
    collect f i n = Thrown what
    <-> exists k, (k < n)%nat
                  /\ f (i + k)%nat = Thrown what
                  /\ forall j, (j < k)%nat -> exists a, f (i + j)%nat = Ret a.
Proof.
  induction n as [|n IH]; intros i; simpl.
  - split; [ discriminate | intros (k & Hk & _); lia ].
  - split.
    + destruct (f i) as [a|w|] eqn:Hfi; simpl; try discriminate.
      * destruct (collect f (Datatypes.S i) n) as [rest|w|] eqn:Hrest;
          simpl; try discriminate.
        intros [= ->]. apply IH in Hrest as (k & Hk & Hthrow & Hbefore).
        exists (Datatypes.S k). split; [ lia | split ].
        -- now rewrite Nat.add_succ_r.
        -- intros [|j] Hj.
           ++ exists a. now rewrite Nat.add_0_r.
           ++ rewrite Nat.add_succ_r. apply Hbefore. lia.
      * intros [= ->]. exists 0%nat. split; [ lia | split ].
        -- now rewrite Nat.add_0_r.
        -- intros j Hj. lia.
    + intros (k & Hk & Hthrow & Hbefore). destruct k as [|k].
      * rewrite Nat.add_0_r in Hthrow. now rewrite Hthrow.
      * destruct (Hbefore 0%nat) as [a Ha]; [ lia | ].
        rewrite Nat.add_0_r in Ha. rewrite Ha. simpl.
        assert (Hrest : collect f (Datatypes.S i) n = Thrown what).
        { apply IH. exists k. split; [ lia | split ].
          - now rewrite Nat.add_succ_r in Hthrow.
          - intros j Hj. specialize (Hbefore (Datatypes.S j)).
            rewrite Nat.add_succ_r in Hbefore. apply Hbefore. lia. }
        now rewrite Hrest.
Qed.

Lemma collect_undefined :
  forall n i,
    collect f i n = Undefined -> exists k, (k < n)%nat /\ f (i + k)%nat = Undefined.
Proof.
  induction n as [|n IH]; intros i; simpl; [ discriminate | ].
  destruct (f i) as [a|w|] eqn:Hfi; simpl; try discriminate.
  - destruct (collect f (Datatypes.S i) n) as [rest|w|] eqn:Hrest;
      simpl; try discriminate.
    intros _. apply IH in Hrest as (k & Hk & Hu).
    exists (Datatypes.S k). split; [ lia | now rewrite Nat.add_succ_r ].
  - intros _. exists 0%nat. split; [ lia | now rewrite Nat.add_0_r ].
Qed.
End CollectStops.

(** ** The embedded front end's parsing *)

Section ParseFacts.
Variable fround : Calib.double -> Calib.double.

Lemma reconcile_length (objs : Js.val) (N : nat)
      (objectPoints : list (list Calib.Point3f)) :
  Calib.reconcileObjectPoints fround objs N = Ret objectPoints ->
  List.length objectPoints = N.
Proof.
  unfold Calib.reconcileObjectPoints.
  destruct (Js.length_as_int objs) as [objLen|]; simpl; [ | discriminate ].
  destruct (Nat.eqb objLen N); simpl.
  - apply collect_length.
  - destruct (Calib.parseObjectList fround objs) as [pts| |]; simpl;
      try discriminate.
    intros [= <-]. apply repeat_length.
Qed.

Lemma parseSession_view_counts (imgs objs : Js.val)
      (imagePoints : list (list Calib.Point2f))
      (objectPoints : list (list Calib.Point3f)) :
  Calib.parseSession fround imgs objs = Ret (imagePoints, objectPoints) ->
  Js.length_as_int imgs = Some (List.length imagePoints)
  /\ List.length objectPoints = List.length imagePoints.
Proof.
  unfold Calib.parseSession.
  destruct (Js.length_as_int imgs) as [N|]; simpl; [ | discriminate ].
  destruct (Js.length_as_int objs) as [objLen|]; simpl; [ | discriminate ].
  destruct (collect (fun i => Calib.parseImageView fround (Js.at_ imgs i)) 0 N)
    as [ips| |] eqn:Himg; simpl; try discriminate.
  destruct (Calib.reconcileObjectPoints fround objs N) as [ops| |] eqn:Hobj;
    simpl; try discriminate.
  intros [= <- <-]. apply collect_length in Himg. apply reconcile_length in Hobj.
  split; congruence.
Qed.

Lemma reconcile_per_view_shaped (views : list (list JsPoint)) :
  Calib.reconcileObjectPoints fround (js_views views) (List.length views)
  = Ret (map (map (to_Point3f fround)) views).
Proof.
  unfold Calib.reconcileObjectPoints, js_views. simpl.
  rewrite length_map, Nat.eqb_refl. simpl.
  apply collect_over_elements. intros pts _. apply parseObjectList_js_points.
Qed.

Lemma reconcile_shared_shaped (shared : list JsPoint) (N : nat) :
  List.length shared <> N ->
  Calib.reconcileObjectPoints fround (js_points shared) N
  = Ret (repeat (map (to_Point3f fround) shared) N).
Proof.
  intros Hlen. unfold Calib.reconcileObjectPoints.
  change (Js.length_as_int (js_points shared))
    with (Some (List.length (map js_point shared))).
  simpl defined. simpl bind. rewrite length_map.
  apply Nat.eqb_neq in Hlen. rewrite Hlen. simpl negb. cbv iota.
  now rewrite parseObjectList_js_points.
Qed.

Lemma parse_images_shaped (views : list (list JsPoint)) :
  collect (fun i => Calib.parseImageView fround
                      (nth i (map js_points views) Js.undefined)) 0
          (List.length views)
  = Ret (map (map (to_Point2f fround)) views).
Proof.
  apply collect_over_elements. intros pts _. apply parseImageView_js_points.
Qed.
End ParseFacts.

(** Whatever the two arguments are, a session that parses has exactly
    one object-point set per image-point set. *)
Theorem parsed_session_has_one_object_set_per_view
        (fround : Calib.double -> Calib.double) (imgs objs : Js.val)
        (imagePoints : list (list Calib.Point2f))
        (objectPoints : list (list Calib.Point3f)) :
  Calib.parseSession fround imgs objs = Ret (imagePoints, objectPoints) ->
  List.length objectPoints = List.length imagePoints.
Proof. intros H. now apply parseSession_view_counts in H. Qed.

(** Well-shaped arguments always parse: per-view object points (as many
    lists as views) come out view by view, and a shared list (of a length
    other than the number of views) comes out once per view; a missing z
    reads as 0. *)
Theorem well_shaped_session_parses (fround : Calib.double -> Calib.double)
        (views : list (list JsPoint)) :
  (forall perView : list (list JsPoint),
      List.length perView = List.length views ->
      Calib.parseSession fround (js_views views) (js_views perView)
      = Ret (map (map (to_Point2f fround)) views,
             map (map (to_Point3f fround)) perView))
  /\ (forall shared : list JsPoint,
         List.length shared <> List.length views ->
         Calib.parseSession fround (js_views views) (js_points shared)
         = Ret (map (map (to_Point2f fround)) views,
                repeat (map (to_Point3f fround) shared) (List.length views))).
Proof.
  split.
  - intros perView Hlen. unfold Calib.parseSession.
    change (Js.length_as_int (js_views views))
      with (Some (List.length (map js_points views))).
    change (Js.length_as_int (js_views perView))
      with (Some (List.length (map js_points perView))).
    rewrite !length_map. simpl defined. simpl bind.
    rewrite parse_images_shaped. simpl bind.
    rewrite <- Hlen, reconcile_per_view_shaped. reflexivity.
  - intros shared Hlen. unfold Calib.parseSession.
    change (Js.length_as_int (js_views views))
      with (Some (List.length (map js_points views))).
    change (Js.length_as_int (js_points shared))
      with (Some (List.length (map js_point shared))).
    rewrite !length_map. simpl defined. simpl bind.
    rewrite parse_images_shaped. simpl bind.
    rewrite reconcile_shared_shaped by assumption. reflexivity.
Qed.

Lemma parsed_session_has_one_object_set_per_view_witness :
  List.length one_object_point = List.length two_corner_points.
Proof.
  apply (@parsed_session_has_one_object_set_per_view Sample.fround
           Sample.two_corners Sample.one_board_point).
  vm_compute. reflexivity.
Defined.

Lemma well_shaped_session_parses_witness :
  Calib.parseSession Sample.fround (js_views three_views) (js_points five_points)
  = Ret (map (map (to_Point2f Sample.fround)) three_views,
         repeat (map (to_Point3f Sample.fround) five_points)
                (List.length three_views)).
Proof.
  apply (proj2 (well_shaped_session_parses Sample.fround three_views)).
  simpl. lia.
Defined.

(** A shared list that happens to have as many points as there are views
    is not taken as shared: the views do not each get that list. *)
Theorem shared_list_as_long_as_views_is_not_shared
        (fround : Calib.double -> Calib.double) (shared : list JsPoint) :
  shared <> [] ->
  Calib.reconcileObjectPoints fround (js_points shared) (List.length shared)
  <> Ret (repeat (map (to_Point3f fround) shared) (List.length shared)).
Proof.
  intros Hne. destruct shared as [|p rest]; [ contradiction | ].
  unfold Calib.reconcileObjectPoints.
  change (Js.length_as_int (js_points (p :: rest)))
    with (Some (List.length (map js_point (p :: rest)))).
  simpl defined. simpl bind. rewrite length_map, Nat.eqb_refl.
  simpl negb. cbv iota.
  destruct p as [[x y] oz]. simpl. discriminate.
Qed.

Lemma shared_list_as_long_as_views_is_not_shared_witness :
  Calib.reconcileObjectPoints Sample.fround
    (js_points [(Sample.num 0, Sample.num 0, None); (Sample.num 1, Sample.num 0, None)])
    2
  <> Ret (repeat (map (to_Point3f Sample.fround)
                      [(Sample.num 0, Sample.num 0, None);
                       (Sample.num 1, Sample.num 0, None)]) 2).
Proof.
  apply (@shared_list_as_long_as_views_is_not_shared Sample.fround
           [(Sample.num 0, Sample.num 0, None); (Sample.num 1, Sample.num 0, None)]).
  discriminate.
Defined.

(** ** The re-projection loop and the two front ends *)

Section LoopFacts.
Variable Mat : Type.
Variable project :
  list Calib.Point3f -> Mat -> Mat -> Mat -> Mat -> CvResult (list Calib.Point2f).
Variable norm : Calib.Norm.

Lemma viewError_in_range (objectPoints : list (list Calib.Point3f))
      (imagePoints : list (list Calib.Point2f))
      (out : Calib.SolverOutput Mat) (i : nat) :
  (i < List.length objectPoints)%nat ->
  List.length imagePoints = List.length objectPoints ->
  List.length (Calib.rvecs out) = List.length objectPoints ->
  List.length (Calib.tvecs out) = List.length objectPoints ->
  Calib.viewError project norm objectPoints imagePoints out i <> Undefined.
Proof.
  intros Hi Himg Hrv Htv. unfold Calib.viewError, vec_at.
  destruct (nth_error objectPoints i) as [o|] eqn:Ho;
    [ | apply nth_error_None in Ho; lia ].
  destruct (nth_error (Calib.rvecs out) i) as [rv|] eqn:Hr;
    [ | apply nth_error_None in Hr; lia ].
  destruct (nth_error (Calib.tvecs out) i) as [tv|] eqn:Ht;
    [ | apply nth_error_None in Ht; lia ].
  destruct (nth_error imagePoints i) as [ip|] eqn:Hip;
    [ | apply nth_error_None in Hip; lia ].
  simpl.
  destruct (project o rv tv (Calib.cameraMatrix out) (Calib.distCoeffs out));
    simpl; [ | discriminate ].
  destruct (norm ip a Calib.NORM_L2); simpl; discriminate.
Qed.

Lemma reprojectionErrors_in_range (objectPoints : list (list Calib.Point3f))
      (imagePoints : list (list Calib.Point2f)) (out : Calib.SolverOutput Mat) :
  List.length imagePoints = List.length objectPoints ->
  List.length (Calib.rvecs out) = List.length objectPoints ->
  List.length (Calib.tvecs out) = List.length objectPoints ->
  Calib.reprojectionErrors project norm objectPoints imagePoints out <> Undefined.
Proof.
  intros Himg Hrv Htv Hu. unfold Calib.reprojectionErrors in Hu.
  apply collect_undefined in Hu as (k & Hk & Hku). simpl in Hku.
  now apply viewError_in_range in Hku.
Qed.
End LoopFacts.

Lemma parseDataFile_view_counts (IStream : Type)
      (extract_int : IStream -> Z * IStream)
      (extract_float : IStream -> Calib.double * IStream)
      (fail : IStream -> bool) (infile : IStream) (imageSize : Size)
      (imagePoints : list (list Calib.Point2f))
      (objectPoints : list (list Calib.Point3f)) :
  Calib.parseDataFile extract_int extract_float fail infile
  = Calib.Session imageSize imagePoints objectPoints ->
  List.length imagePoints = List.length objectPoints.
Proof.
  unfold Calib.parseDataFile.
  destruct (extract_int infile) as [w s1]. destruct (extract_int s1) as [h s2].
  destruct (extract_int s2) as [N s3].
  destruct (fail s3); [ discriminate | ].
  destruct (N <? 0); [ discriminate | ].
  destruct (Calib.readViews extract_int extract_float (Z.to_nat N) s3)
    as [[imgs objs]|] eqn:Hviews; [ | discriminate ].
  intros [= <- <- <-].
  destruct (readViews_counts _ _ _ _ Hviews) as [_ Hall].
  symmetry. now apply Forall2_length in Hall.
Qed.

(** The exception that ends the re-projection loop is the one thrown for
    the first view whose projection or norm throws; every earlier view was
    measured, and no later view is looked at. *)
Theorem reprojection_stops_at_first_failure (Mat : Type)
        (project : list Calib.Point3f -> Mat -> Mat -> Mat -> Mat
                   -> CvResult (list Calib.Point2f))
        (norm : Calib.Norm)
        (objectPoints : list (list Calib.Point3f))
        (imagePoints : list (list Calib.Point2f))
        (out : Calib.SolverOutput Mat) (what : string) :
  Calib.reprojectionErrors project norm objectPoints imagePoints out = Thrown what
  <-> exists k,
      (k < List.length objectPoints)%nat
      /\ Calib.viewError project norm objectPoints imagePoints out k = Thrown what
      /\ forall j, (j < k)%nat ->
                   exists e,
                     Calib.viewError project norm objectPoints imagePoints out j
                     = Ret e.
Proof. unfold Calib.reprojectionErrors. apply collect_thrown_iff. Qed.

(** With a solver that returns one rotation and one translation per
    view, neither front end reads a vector out of range. *)
Theorem no_out_of_range_access (Mat : Type)
        (solver : list (list Calib.Point3f) -> list (list Calib.Point2f) -> Size
                  -> CvResult (Calib.SolverOutput Mat))
        (project : list Calib.Point3f -> Mat -> Mat -> Mat -> Mat
                   -> CvResult (list Calib.Point2f))
        (norm : Calib.Norm)
        (fround : Calib.double -> Calib.double)
        (IStream : Type)
        (extract_int : IStream -> Z * IStream)
        (extract_float : IStream -> Calib.double * IStream)
        (fail : IStream -> bool) :
  (forall objectPoints imagePoints imageSize out,
      solver objectPoints imagePoints imageSize = Ok out ->
      List.length (Calib.rvecs out) = List.length objectPoints
      /\ List.length (Calib.tvecs out) = List.length objectPoints) ->
  (forall imgs objs w h imagePoints objectPoints,
      Calib.parseSession fround imgs objs = Ret (imagePoints, objectPoints) ->
      Calib.calibrateCamera solver project norm fround imgs objs w h
      <> Calib.WUndefined Mat)
  /\ (forall infile,
         Calib.calibrate_main solver project norm extract_int extract_float fail infile
         <> Calib.CliUndefined Mat).
Proof.
  intros Hposes. split.
  - intros imgs objs w h imagePoints objectPoints Hparse.
    unfold Calib.calibrateCamera. rewrite Hparse.
    apply parseSession_view_counts in Hparse as [_ Hlen].
    destruct (solver objectPoints imagePoints (mkSize w h)) as [out|what] eqn:Hs;
      [ | discriminate ].
    destruct (Hposes _ _ _ _ Hs) as [Hrv Htv].
    pose proof (@reprojectionErrors_in_range Mat project norm objectPoints
                  imagePoints out (eq_sym Hlen) Hrv Htv) as Hdef.
    destruct (Calib.reprojectionErrors project norm objectPoints imagePoints out);
      [ discriminate | discriminate | contradiction ].
  - intros [s|]; unfold Calib.calibrate_main; [ | discriminate ].
    destruct (Calib.parseDataFile extract_int extract_float fail s)
      as [ | | imageSize imagePoints objectPoints] eqn:Hparse; try discriminate.
    apply parseDataFile_view_counts in Hparse.
    destruct (solver objectPoints imagePoints imageSize) as [out|what] eqn:Hs;
      [ | discriminate ].
    destruct (Hposes _ _ _ _ Hs) as [Hrv Htv].
    pose proof (@reprojectionErrors_in_range Mat project norm objectPoints
                  imagePoints out Hparse Hrv Htv) as Hdef.
    destruct (Calib.reprojectionErrors project norm objectPoints imagePoints out);
      [ discriminate | discriminate | contradiction ].
Qed.

Lemma strict_solver_poses (objectPoints : list (list Calib.Point3f))
      (imagePoints : list (list Calib.Point2f)) (imageSize : Size)
      (out : Calib.SolverOutput unit) :
  Sample.strict_solver objectPoints imagePoints imageSize = Ok out ->
  List.length (Calib.rvecs out) = List.length objectPoints
  /\ List.length (Calib.tvecs out) = List.length objectPoints.
Proof.
  unfold Sample.strict_solver.
  destruct (Sample.counts_match objectPoints imagePoints); [ | discriminate ].
  intros [= <-]. simpl. now rewrite repeat_length.
Qed.

Lemma no_out_of_range_access_witness :
  Calib.calibrateCamera Sample.strict_solver Sample.flat_project Sample.norm
    Sample.fround Sample.two_corners Sample.one_board_point 640 480
  <> Calib.WUndefined unit
  /\ Calib.calibrate_main Sample.strict_solver Sample.flat_project Sample.norm
       Sample.extract_int Sample.extract_float Sample.fail (Some Sample.data_file)
     <> Calib.CliUndefined unit.
Proof.
  destruct (@no_out_of_range_access unit Sample.strict_solver Sample.flat_project
              Sample.norm Sample.fround Sample.Tokens Sample.extract_int
              Sample.extract_float Sample.fail strict_solver_poses)
    as [Hwasm Hcli].
  split.
  - apply (Hwasm Sample.two_corners Sample.one_board_point 640 480
                 two_corner_points one_object_point).
    vm_compute. reflexivity.
  - apply Hcli.
Defined.

Lemma reprojection_stops_at_first_failure_witness :
  exists k,
    (k < 1)%nat
    /\ Calib.viewError Sample.failing_project Sample.norm
         [[Calib.mkPoint3f (Sample.num 0) (Sample.num 0) PrimFloat.zero]]
         [[Calib.mkPoint2f (Sample.num 0) (Sample.num 0)]] (Sample.poses 1) k
       = Thrown "projection failed"
    /\ forall j, (j < k)%nat ->
                 exists e,
                   Calib.viewError Sample.failing_project Sample.norm
                     [[Calib.mkPoint3f (Sample.num 0) (Sample.num 0) PrimFloat.zero]]
                     [[Calib.mkPoint2f (Sample.num 0) (Sample.num 0)]]
                     (Sample.poses 1) j
                   = Ret e.
Proof.
  apply (proj1 (@reprojection_stops_at_first_failure unit Sample.failing_project
                  Sample.norm
                  [[Calib.mkPoint3f (Sample.num 0) (Sample.num 0) PrimFloat.zero]]
                  [[Calib.mkPoint2f (Sample.num 0) (Sample.num 0)]]
                  (Sample.poses 1) "projection failed")).
  reflexivity.
Defined.

(** On the same session, image size and collaborators the two front ends
    agree wherever both have a handler: one reports a result exactly when
    the other reports the same result, and one returns the solver's
    message in an error object exactly when the other prints it as an
    OpenCV Calibration Error. *)
Theorem front_ends_agree (Mat : Type)
        (solver : list (list Calib.Point3f) -> list (list Calib.Point2f) -> Size
                  -> CvResult (Calib.SolverOutput Mat))
        (project : list Calib.Point3f -> Mat -> Mat -> Mat -> Mat
                   -> CvResult (list Calib.Point2f))
        (norm : Calib.Norm)
        (fround : Calib.double -> Calib.double)
        (IStream : Type)
        (extract_int : IStream -> Z * IStream)
        (extract_float : IStream -> Calib.double * IStream)
        (fail : IStream -> bool)
        (imgs objs : Js.val) (w h : Z) (infile : IStream)
        (imagePoints : list (list Calib.Point2f))
        (objectPoints : list (list Calib.Point3f)) :
  Calib.parseSession fround imgs objs = Ret (imagePoints, objectPoints) ->
  Calib.parseDataFile extract_int extract_float fail infile
  = Calib.Session (mkSize w h) imagePoints objectPoints ->
  (forall r,
      Calib.calibrateCamera solver project norm fround imgs objs w h
      = Calib.WResult r
      <-> Calib.calibrate_main solver project norm extract_int extract_float fail
            (Some infile)
          = Calib.Exit 0 (Calib.PResult r))
  /\ (forall what,
         Calib.calibrateCamera solver project norm fround imgs objs w h
         = Calib.WError Mat what
         <-> Calib.calibrate_main solver project norm extract_int extract_float fail
               (Some infile)
             = Calib.Exit 0
                 (Calib.PFailure Mat ("OpenCV Calibration Error: " ++ what))).
Proof.
  intros Hjs Hfile. unfold Calib.calibrateCamera, Calib.calibrate_main.
  rewrite Hjs, Hfile.
  destruct (solver objectPoints imagePoints (mkSize w h)) as [out|msg].
  - destruct (Calib.reprojectionErrors project norm objectPoints imagePoints out)
      as [errs|msg|].
    + split.
      * intros r. split; intros [= <-]; reflexivity.
      * intros what. split; discriminate.
    + split.
      * intros r. split; discriminate.
      * intros what. split; [ discriminate | ]. simpl. intros H. discriminate H.
    + split.
      * intros r. split; discriminate.
      * intros what. split; discriminate.
  - split.
    + intros r. split; discriminate.
    + intros what. split.
      * intros [= ->]. reflexivity.
      * simpl. intros [= ->]. reflexivity.
Qed.

Lemma front_ends_agree_witness :
  Calib.calibrateCamera Sample.strict_solver Sample.flat_project Sample.norm
    Sample.fround Sample.shifted_corners Sample.two_board_points 640 480
  = Calib.WResult sample_report
  <-> Calib.calibrate_main Sample.strict_solver Sample.flat_project Sample.norm
        Sample.extract_int Sample.extract_float Sample.fail (Some Sample.data_file)
      = Calib.Exit 0 (Calib.PResult sample_report).
Proof.
  apply (@front_ends_agree unit Sample.strict_solver Sample.flat_project
           Sample.norm Sample.fround Sample.Tokens Sample.extract_int
           Sample.extract_float Sample.fail
           Sample.shifted_corners Sample.two_board_points 640 480 Sample.data_file
           [[Calib.mkPoint2f (Sample.num 2) (Sample.num 0);
             Calib.mkPoint2f (Sample.num 3) (Sample.num 0)]]
           [[Calib.mkPoint3f (Sample.num 0) (Sample.num 0) (Sample.num 0);
             Calib.mkPoint3f (Sample.num 1) (Sample.num 0) (Sample.num 0)]]);
    vm_compute; reflexivity.
Defined.

(* ================================================================== *)
(** * Two more facts about detection *)

(** Before sorting, the auto-mode loops have pushed each size once, by
    rows ascending and, within a row count, by columns ascending, with
    every side between 3 and 20 whatever the feature count. *)
Theorem auto_generation_order (detectedCount : Z) :
  StronglySorted rowsThenCols (Candidates.autoCandidates detectedCount)
  /\ NoDup (Candidates.autoCandidates detectedCount)
  /\ forall s, In s (Candidates.autoCandidates detectedCount) ->
               3 <= height s <= 20 /\ 3 <= width s <= 20.
Proof.
  split; [ apply autoCandidates_visit_order | split ].
  - apply NoDup_autoCandidates.
  - intros s Hs. now apply in_autoCandidates in Hs.
Qed.

(** When either front end reports a detection, the rows and cols are the
    height and width of a candidate on which the corner finder succeeded,
    and the corners are the refiner's output for what the finder returned
    on that very candidate. *)
Theorem detection_reports_refined_corners (Mat Point2f : Type)
        (goodFeaturesToTrack : Mat -> list Point2f)
        (findChessboardCorners : Mat -> Size -> bool * list Point2f)
        (cornerSubPix : Mat -> list Point2f -> list Point2f)
        (S : StdSort) (imgCols imgRows : Z) (gray : Mat) (rows cols : Z) :
  Search.found
    (Detect.detect goodFeaturesToTrack findChessboardCorners S gray rows cols)
  = true ->
  exists s cs,
    In s (Candidates.sizesToTry S rows cols (goodFeaturesToTrack gray))
    /\ findChessboardCorners gray s = (true, cs)
    /\ Detect.detectCorners goodFeaturesToTrack findChessboardCorners cornerSubPix S
                            gray rows cols
       = Detect.mkDetectObject true (Some (height s)) (Some (width s))
                               (Some (cornerSubPix gray cs))
    /\ Detect.detect_main goodFeaturesToTrack findChessboardCorners cornerSubPix S
                          imgCols imgRows gray rows cols
       = Detect.Detected (height s) (width s) imgCols imgRows (cornerSubPix gray cs).
Proof.
  intros Hfound. unfold Detect.detectCorners, Detect.detect_main.
  rewrite Hfound. unfold Detect.detect in *.
  destruct (search_outcome (findChessboardCorners gray)
              (Candidates.sizesToTry S rows cols (goodFeaturesToTrack gray)))
    as [(_ & pre & post & Hsplit & _ & Hfind & _) | (Hf & _)]; [ | congruence ].
  exists (Search.foundSize
            (Search.search (findChessboardCorners gray)
               (Candidates.sizesToTry S rows cols (goodFeaturesToTrack gray)))),
         (Search.corners
            (Search.search (findChessboardCorners gray)
               (Candidates.sizesToTry S rows cols (goodFeaturesToTrack gray)))).
  split; [ | split; [ assumption | split; reflexivity ] ].
  rewrite Hsplit at 2. apply in_or_app. right. now left.
Qed.

Lemma detection_reports_refined_corners_witness :
  exists s cs,
    In s (Candidates.sizesToTry keeping_std_sort 6 9 (no_features tt))
    /\ shows (mkSize 8 5) tt s = (true, cs)
    /\ Detect.detectCorners no_features (shows (mkSize 8 5)) keep_corners
                            keeping_std_sort tt 6 9
       = Detect.mkDetectObject true (Some (height s)) (Some (width s))
                               (Some (keep_corners tt cs))
    /\ Detect.detect_main no_features (shows (mkSize 8 5)) keep_corners
                          keeping_std_sort 640 480 tt 6 9
       = Detect.Detected (height s) (width s) 640 480 (keep_corners tt cs).
Proof.
  apply (@detection_reports_refined_corners unit (Z * Z)%type no_features
           (shows (mkSize 8 5)) keep_corners keeping_std_sort 640 480 tt 6 9).
  reflexivity.
Defined.
